(** * go-adstxt-crawler: the redirect policy and response validation of
    [crawler.go], embedded in Rocq.

    Go strings are byte strings and are modelled as [string].  A library
    call returning [(T, error)] is a pair of the value and an optional
    error message, as in Go; the crawler's own functions return a [result].
    [log.Printf] writes to an explicit log that is threaded through. *)

From Stdlib Require Import ZArith.
From stdpp Require Import gmap strings list.

Local Open Scope Z_scope.

(** ** The Go packages the crawler imports *)

Module strings.

(** [strings.HasSuffix]:
    [len(s) >= len(suffix) && s[len(s)-len(suffix):] == suffix]. *)
Definition HasSuffix (s suffix : string) : bool :=
  (String.length suffix <=? String.length s)%nat &&
  String.eqb
    (String.substring (String.length s - String.length suffix)
                      (String.length suffix) s)
    suffix.

(** [strings.Index]: the index of the first instance of [substr] in [s],
    or -1 when there is none. *)
Definition Index (s substr : string) : Z :=
  match String.index 0 substr s with
  | Some n => Z.of_nat n
  | None => -1
  end.

End strings.

Module ioutil.

(** The body of a response is a stream: [pending] are the bytes still to
    be read and [broken] the error the transport reports after them. *)
Record ReadCloser := mkBody {
  pending : list Byte.byte;
  broken : option string
}.

(** [ioutil.ReadAll]: all that is pending and the error, if any; the
    stream is left drained. *)
Definition ReadAll (b : ReadCloser)
  : (list Byte.byte * option string) * ReadCloser :=
  ((pending b, broken b), mkBody [] (broken b)).

End ioutil.

Module http.

(** [http.Header] is [map[string][]string]. [Get] returns the first value
    stored under the key, or the empty string; [Add] appends a value.
    The keys the crawler uses are already in canonical MIME form. *)
Definition HeaderGet (h : gmap string (list string)) (key : string) : string :=
  match h !! key with
  | Some (v :: _) => v
  | _ => ""
  end.

Definition HeaderAdd (h : gmap string (list string)) (key value : string)
  : gmap string (list string) :=
  <[key := default [] (h !! key) ++ [value]]> h.

Record Request := mkRequest {
  Method : string;
  Target : string;
  RequestHeader : gmap string (list string)
}.

(** The fields of [http.Response] that the crawler reads;
    [RequestURL] stands for [res.Request.URL]. *)
Record Response := mkResponse {
  Status : string;
  StatusCode : Z;
  Header : gmap string (list string);
  Body : ioutil.ReadCloser;
  RequestURL : string
}.

End http.

Module url.

(** The fields of [url.URL] that the crawler inspects, with the value of
    the method [Hostname()] (the host without port and brackets). *)
Record URL := mkURL { Scheme : string; Host : string; Hostname : string }.

End url.

Module time.

(** [time.Time], as seconds counted from the zero value [time.Time{}]. *)
Record Time := mkTime { seconds : Z }.

Definition zero : Time := mkTime 0.

End time.

(** ** Data model of the package *)

(** [Request]: the URL being fetched and the root domain of the original
    host. *)
Record Request := mkRequest { URL : string; Domain : string }.

(** The errors of the package: one constructor per format constant of
    [crawler.go], with the arguments given to [fmt.Errorf].
    [errExpiresMissing] is the literal message of [parseExpires], and
    [errLibrary] is an error of a library call returned unchanged.
    [crawler.go] declares [errHTTPClientError] and [errHTTPGeneralError]
    and leaves their use to its caller; [errInfiniteRedirect] and its
    use are commented out there. *)
Inductive error : Type :=
| errHTTPClientError (cause : error) (domain url : string)
| errHTTPGeneralError (status domain url : string)
| errHTTPBadContentType (url contentType : string)
| errFailToParseRedirect (domain url redirect cause : string)
| errRedirctToInvalidAdsTxt (domain url redirect : string)
| errRedirectToDifferentDomain (domain prevDomain d : string)
| errRedirectSameDomain (domain url redirect : string)
| errRedirctToMainPage (domain url redirect : string)
| errInfiniteRedirect (domain url redirect : string)
| errExpiresMissing
| errLibrary (cause : string).

(** Lines written with [log.Printf]. *)
Inductive LogLine : Type :=
| LogRedirect (status from to : string)
| LogExpires (url cause : string).

(** [err != nil]. *)
Definition notNil (err : option string) : bool :=
  match err with
  | Some _ => true
  | None => false
  end.

Inductive result (A : Type) : Type :=
| Ok (a : A)
| Err (e : error).
Arguments Ok {A} a.
Arguments Err {A} e.

(** HTTP crawler settings. *)
Definition userAgent : string :=
  "+https://github.com/ehulsbosch/go-adstxt-crawler".
Definition requestTimeout : Z := 30.

(** [crawler]: [client] is what [client.Do] answers; it stands for the
    [http.Client] built by [newCrawler] (no keep-alive, a timeout of
    [requestTimeout] seconds, redirects not followed) and the remote
    hosts behind it. *)
Record crawler := mkCrawler {
  client : http.Request -> http.Response * option string;
  UserAgent : string
}.

Definition newCrawler (Do : http.Request -> http.Response * option string)
  : crawler :=
  mkCrawler Do userAgent.

(** ** Computations that log and may fail *)

Definition Go (A : Type) : Type := list LogLine -> result A * list LogLine.

Definition ret {A} (a : A) : Go A := fun l => (Ok a, l).
Definition fail {A} (e : error) : Go A := fun l => (Err e, l).
Definition bind {A B} (m : Go A) (k : A -> Go B) : Go B :=
  fun l => match m l with
           | (Ok a, l') => k a l'
           | (Err e, l') => (Err e, l')
           end.
Definition Printf (line : LogLine) : Go unit := fun l => (Ok tt, l ++ [line]).

Declare Scope go_scope.
Delimit Scope go_scope with go.
Notation "'do' x <- m ; k" := (bind m (fun x => k))
  (at level 10, x name, m at level 100, k at level 200) : go_scope.
Local Open Scope go_scope.

(** ** The crawler *)

Section Crawler.

(** What [crawler.go] calls and does not define: [rootDomain] (root-domain
    extraction, elsewhere in the package), the parsers of [net/url] and
    [net/http], and [http.NewRequest]. *)
Variable rootDomain : string -> string * option string.
Variable ParseRequestURI : string -> url.URL * option string.
Variable Parse : string -> url.URL * option string.
Variable ParseTime : string -> time.Time * option string.
Variable NewRequest : string -> string -> http.Request * option string.

(** [sendRequest]: send the HTTP request for the Ads.txt file. *)
Definition sendRequest (c : crawler) (req : Request) : result http.Response :=
  let (httpRequest, err) := NewRequest "GET" (URL req) in
  match err with
  | Some cause => Err (errLibrary cause)
  | None =>
  let header := http.RequestHeader httpRequest in
  let header := http.HeaderAdd header "User-Agent" (UserAgent c) in
  let header := http.HeaderAdd header "Accept" "text/plain" in
  let header := http.HeaderAdd header "Accept-Charset" "utf-8" in
  let header :=
    http.HeaderAdd header "Content-Type" "text/plain; charset=utf-8" in
  let httpRequest :=
    http.mkRequest (http.Method httpRequest) (http.Target httpRequest) header in
  let (res, err) := client c httpRequest in
  match err with
  | Some cause => Err (errLibrary cause)
  | None => Ok res
  end
  end.

(** [handleRedirect]: parse the new destination from the [Location]
    header of a redirect response and decide whether it may be followed. *)
Definition handleRedirect (req : Request) (res : http.Response) : Go string :=
  let redirect := http.HeaderGet (http.Header res) "Location" in
  if String.eqb redirect (URL req) then
    fail (errRedirectSameDomain (Domain req) (URL req) redirect)
  else
  do _ <- Printf (LogRedirect (http.Status res) (URL req) redirect);
  let (d, err) := rootDomain redirect in
  match err with
  | Some cause =>
      fail (errFailToParseRedirect (Domain req) (URL req) redirect cause)
  | None =>
  do _ <-
     (if negb (String.eqb d (Domain req)) then
        let prevDomain := fst (rootDomain (URL req)) in
        if negb (String.eqb prevDomain (Domain req))
           && negb (String.eqb prevDomain d)
        then fail (errRedirectToDifferentDomain (Domain req) prevDomain d)
        else ret tt
      else ret tt);
  if negb (strings.HasSuffix redirect "/ads.txt") then
    let (_, err) := ParseRequestURI redirect in
    if notNil err then
      fail (errRedirctToInvalidAdsTxt (Domain req) (URL req) redirect)
    else
    let (u, err) := Parse redirect in
    if notNil err
       || String.eqb (url.Scheme u) "" || String.eqb (url.Host u) "" then
      fail (errRedirctToInvalidAdsTxt (Domain req) (URL req) redirect)
    else
    if String.eqb (url.Scheme u +:+ "://" +:+ url.Hostname u) redirect then
      fail (errRedirctToMainPage (Domain req) (URL req) redirect)
    else
    ret redirect
  else ret redirect
  end.

(** The last stage of [handleRedirect] on its own, to state lemmas with:
    the checks on the shape of a target that has passed the others. *)
Definition targetShape (req : Request) (redirect : string) : result string :=
  if negb (strings.HasSuffix redirect "/ads.txt") then
    if notNil (ParseRequestURI redirect).2 then
      Err (errRedirctToInvalidAdsTxt (Domain req) (URL req) redirect)
    else
    let u := (Parse redirect).1 in
    if notNil (Parse redirect).2
       || String.eqb (url.Scheme u) "" || String.eqb (url.Host u) "" then
      Err (errRedirctToInvalidAdsTxt (Domain req) (URL req) redirect)
    else
    if String.eqb (url.Scheme u +:+ "://" +:+ url.Hostname u) redirect then
      Err (errRedirctToMainPage (Domain req) (URL req) redirect)
    else Ok redirect
  else Ok redirect.

(** [readBody]: the content type must start with [text/plain]; only then
    is the body read.  The second component is the body afterwards. *)
Definition readBody (req : Request) (res : http.Response)
  : result (list Byte.byte) * ioutil.ReadCloser :=
  let contentType := http.HeaderGet (http.Header res) "Content-Type" in
  if negb (strings.Index contentType "text/plain" =? 0) then
    (Err (errHTTPBadContentType (URL req) contentType), http.Body res)
  else
  let '((body, err), rest) := ioutil.ReadAll (http.Body res) in
  match err with
  | Some cause => (Err (errLibrary cause), rest)
  | None => (Ok body, rest)
  end.

(** [parseExpires]: the expiration date from the [Expires] header. *)
Definition parseExpires (res : http.Response) : Go time.Time :=
  let expires := http.HeaderGet (http.Header res) "Expires" in
  if (String.length expires =? 0)%nat then
    fail errExpiresMissing
  else
  let (parsedHeader, err) := ParseTime expires in
  match err with
  | Some cause =>
      do _ <- Printf (LogExpires (http.RequestURL res) cause);
      fail (errLibrary cause)
  | None => ret parsedHeader
  end.

End Crawler.

(** ** The fetch sequence *)

(** Modelled from the spec: the data of a fetch sequence (section 3),
    whose declarations are not among the sources: the per-sequence state
    of the redirect policy, the response of a completed fetch and the
    outcome of a sequence.  [Redirects] is the counter of redirects
    followed, which section 9 moves into this state. *)
Record RedirectState := mkState {
  CurrentURL : string;
  CrossDomainHopUsed : bool;
  VisitedURLs : gset string;
  Redirects : nat
}.

Record Response := mkResponse {
  FinalURL : string;
  StatusCode : Z;
  ContentType : string;
  Body : list Byte.byte;
  Expires : option time.Time
}.

Inductive Outcome : Type :=
| Fetched (r : Response)
| Failed (e : error).

(** Modelled from the spec: the redirect statuses (301, 302, 307) and the
    success statuses (2xx) of section 4.2, and the state a sequence
    starts in: at the URL of the request, which is the first URL
    visited, with no hop out of the domain and no redirect yet. *)
Definition isRedirect (code : Z) : bool :=
  (code =? 301) || (code =? 302) || (code =? 307).

Definition isSuccess (code : Z) : bool :=
  (200 <=? code) && (code <? 300).

Definition start (req : Request) : RedirectState :=
  mkState (URL req) false {[URL req]} 0.

Section FetchSequence.

Variable rootDomain : string -> string * option string.
Variable ParseRequestURI : string -> url.URL * option string.
Variable Parse : string -> url.URL * option string.
Variable ParseTime : string -> time.Time * option string.
Variable NewRequest : string -> string -> http.Request * option string.
Variable c : crawler.

(** The maximum of redirects in one sequence, which the spec reinstates
    (sections 4.2 and 9; [crawler.go] has it commented out). *)
Variable maxNumRedirects : nat.

(** Modelled from the spec: one turn of the loop of the fetch sequence
    (section 4.2, steps 2 to 8).  The function of the package that drives
    a request, the caller of [sendRequest], [handleRedirect], [readBody]
    and [parseExpires], is not among the sources.  The result is the
    state for the next turn, or the response that ends the sequence; an
    error ends it too.  A redirect is judged by [handleRedirect]; one
    that it allows still ends the sequence with an error when its target
    was visited before (a cycle), when the one hop out of the original
    domain is used and the target is in neither the original domain nor
    the domain of the current URL (the invariants of section 3), or when
    the maximum of redirects is reached. *)
Definition fetchStep (domain : string) (st : RedirectState)
  : Go (RedirectState + Response) :=
  let req := mkRequest (CurrentURL st) domain in
  match sendRequest NewRequest c req with
  | Err e => fail (errHTTPClientError e domain (CurrentURL st))
  | Ok res =>
  if isRedirect (http.StatusCode res) then
    do target <- handleRedirect rootDomain ParseRequestURI Parse req res;
    let d := fst (rootDomain target) in
    let prevDomain := fst (rootDomain (CurrentURL st)) in
    if bool_decide (target ∈ VisitedURLs st) then
      fail (errRedirectSameDomain domain (CurrentURL st) target)
    else if CrossDomainHopUsed st
            && negb (String.eqb d domain) && negb (String.eqb d prevDomain)
    then fail (errRedirectToDifferentDomain domain prevDomain d)
    else if (maxNumRedirects <=? Redirects st)%nat then
      fail (errInfiniteRedirect domain (CurrentURL st) target)
    else
    ret (inl (mkState target
                (CrossDomainHopUsed st || negb (String.eqb d domain))
                ({[target]} ∪ VisitedURLs st)
                (S (Redirects st))))
  else if negb (isSuccess (http.StatusCode res)) then
    fail (errHTTPGeneralError (http.Status res) domain (CurrentURL st))
  else
  match readBody req res with
  | (Err e, _) => fail e
  | (Ok body, _) =>
  fun l =>
    let (expires, l') := parseExpires ParseTime res l in
    (Ok (inr (mkResponse (CurrentURL st) (http.StatusCode res)
                (http.HeaderGet (http.Header res) "Content-Type") body
                (match expires with Ok t => Some t | Err _ => None end))),
     l')
  end
  end.

(** Modelled from the spec: the fetch sequence, at most [fuel] turns of
    the loop.  [Ok None] means that the sequence is still running after
    them, which it never is after more turns than [maxNumRedirects]. *)
Fixpoint FetchSequence (fuel : nat) (domain : string) (st : RedirectState)
  : Go (option Response) :=
  match fuel with
  | O => ret None
  | S fuel' =>
      do next <- fetchStep domain st;
      match next with
      | inl st' => FetchSequence fuel' domain st'
      | inr r => ret (Some r)
      end
  end.

(** Modelled from the spec: the URLs that the sequence requests, in
    order, in its first [fuel] turns. *)
Fixpoint requested (fuel : nat) (domain : string) (st : RedirectState)
         (l : list LogLine) : list string :=
  match fuel with
  | O => []
  | S fuel' =>
      CurrentURL st ::
      match fetchStep domain st l with
      | (Ok (inl st'), l') => requested fuel' domain st' l'
      | _ => []
      end
  end.

(** Modelled from the spec: the outcome of the sequence of a request
    within [fuel] turns, if it has completed by then. *)
Definition outcome (fuel : nat) (req : Request) : option Outcome :=
  match fst (FetchSequence fuel (Domain req) (start req) []) with
  | Ok (Some r) => Some (Fetched r)
  | Ok None => None
  | Err e => Some (Failed e)
  end.

(** ** The batch *)

(** Modelled from the spec: the batch entry point (section 4.3), which is
    not among the sources.  There is one task per request, and a task is
    running its sequence, or has completed it with an outcome, or has
    handed the outcome to the handler. *)
Inductive Task : Type :=
| Running (st : RedirectState)
| Completed (o : Outcome)
| Delivered (o : Outcome).

(** Modelled from the spec: the tasks of a batch, the calls of the
    handler so far (the position of a request in the batch stands for its
    pointer), and the log. *)
Record Batch := mkBatch {
  tasks : list (Request * Task);
  handled : list (nat * Request * Outcome);
  logged : list LogLine
}.

(** Modelled from the spec: a batch starts with every task running; the
    tasks run concurrently, which is to say that at every moment any of
    them may take the next step.  A running task does one turn of its
    sequence, a completed one calls the handler with its outcome. *)
Definition spawn (requests : list Request) : Batch :=
  mkBatch (map (fun r => (r, Running (start r))) requests) [] [].

Definition advance (b : Batch) (i : nat) : Batch :=
  match tasks b !! i with
  | Some (r, Running st) =>
      let (next, l') := fetchStep (Domain r) st (logged b) in
      let t := match next with
               | Ok (inl st') => Running st'
               | Ok (inr resp) => Completed (Fetched resp)
               | Err e => Completed (Failed e)
               end in
      mkBatch (<[i := (r, t)]> (tasks b)) (handled b) l'
  | Some (r, Completed o) =>
      mkBatch (<[i := (r, Delivered o)]> (tasks b))
              (handled b ++ [(i, r, o)]) (logged b)
  | _ => b
  end.

Definition run (schedule : list nat) (b : Batch) : Batch :=
  fold_left advance schedule b.

(** Modelled from the spec: the schedule that lets each of [n] tasks
    take [k] steps, in turns. *)
Definition inTurns (n k : nat) : list nat :=
  concat (replicate k (seq 0 n)).

(** Modelled from the spec: a task on its own, and what it is after [k]
    steps. *)
Definition alone_step (r : Request) (t : Task) : Task :=
  match t with
  | Running st =>
      match fst (fetchStep (Domain r) st []) with
      | Ok (inl st') => Running st'
      | Ok (inr resp) => Completed (Fetched resp)
      | Err e => Completed (Failed e)
      end
  | Completed o => Delivered o
  | Delivered o => Delivered o
  end.

Definition alone (r : Request) (k : nat) : Task :=
  Nat.iter k (alone_step r) (Running (start r)).

(** Modelled from the spec: the calls of the handler that a task in a
    certain state has made. *)
Definition given (i : nat) (r : Request) (t : Task)
  : list (nat * Request * Outcome) :=
  match t with
  | Delivered o => [(i, r, o)]
  | _ => []
  end.

(** Modelled from the spec: the calls of the handler for the request at
    position [i]. *)
Definition calls (i : nat) (b : Batch) : list (nat * Request * Outcome) :=
  filter (fun h => h.1.1 = i) (handled b).

End FetchSequence.

(** ** A small world for closed examples

    Tables for the calls that [crawler.go] leaves to other code, listing
    what they answer on the URLs of the examples, and a remote host that
    redirects two addresses of one site to each other. *)

Module Example.

Fixpoint assoc {A} (key : string) (table : list (string * A)) : option A :=
  match table with
  | [] => None
  | (k, v) :: rest => if String.eqb k key then Some v else assoc key rest
  end.

Definition rootDomain (rawurl : string) : string * option string :=
  match assoc rawurl
          [("http://a.example", "a.example");
           ("http://a.example/ads.txt", "a.example");
           ("http://www.a.example/ads.txt", "a.example");
           ("http://a.example/index.html", "a.example");
           ("a.example/ads", "a.example");
           ("http://b.example", "b.example");
           ("http://b.example/ads.txt", "b.example");
           ("http://c.example", "c.example");
           ("http://c.example/ads.txt", "c.example");
           ("http://d.example/ads.txt", "d.example")] with
  | Some d => (d, None)
  | None => ("", Some "cannot derive the root domain")
  end.

Definition Parse (rawurl : string) : url.URL * option string :=
  match assoc rawurl
          [("http://a.example", url.mkURL "http" "a.example" "a.example");
           ("http://b.example", url.mkURL "http" "b.example" "b.example");
           ("http://c.example", url.mkURL "http" "c.example" "c.example");
           ("http://a.example/index.html",
            url.mkURL "http" "a.example" "a.example")] with
  | Some u => (u, None)
  | None => (url.mkURL "" "" "", Some "invalid URI for request")
  end.

Definition ParseTime (text : string) : time.Time * option string :=
  (time.zero, Some "cannot parse the time").

Definition NewRequest (method rawurl : string) : http.Request * option string :=
  (http.mkRequest method rawurl ∅, None).

Definition found (location : string) : http.Response :=
  http.mkResponse "302 Found" 302 {["Location" := [location]]}
                  (ioutil.mkBody [] None) "".

Definition page (contentType : string) (body : list Byte.byte)
  : http.Response :=
  http.mkResponse "200 OK" 200 {["Content-Type" := [contentType]]}
                  (ioutil.mkBody body None) "".

(** [http://a.example/ads.txt] and [http://www.a.example/ads.txt]
    redirect to each other, [http://b.example/ads.txt] serves a file and
    [http://c.example/ads.txt] redirects to itself. *)
Definition Do (r : http.Request) : http.Response * option string :=
  match assoc (http.Target r)
          [("http://a.example/ads.txt", found "http://www.a.example/ads.txt");
           ("http://www.a.example/ads.txt", found "http://a.example/ads.txt");
           ("http://b.example/ads.txt", page "text/plain" [Byte.x67]);
           ("http://c.example/ads.txt", found "http://c.example/ads.txt")]
    with
  | Some res => (res, None)
  | None => (page "" [], Some "no such host")
  end.

(** The hosts of the scenarios of the spec: [http://a.example] redirects
    to its [/ads.txt], where the file is; [http://b.example] redirects to
    [c.example], which redirects to [d.example]. *)
Definition scenarios (r : http.Request) : http.Response * option string :=
  match assoc (http.Target r)
          [("http://a.example", found "http://a.example/ads.txt");
           ("http://a.example/ads.txt", page "text/plain" [Byte.x67]);
           ("http://b.example", found "http://c.example/ads.txt");
           ("http://c.example/ads.txt", found "http://d.example/ads.txt")]
    with
  | Some res => (res, None)
  | None => (page "" [], Some "no such host")
  end.

Definition handleRedirect := handleRedirect rootDomain Parse Parse.

(** The maximum that [crawler.go] has commented out. *)
Definition maxNumRedirects : nat := 10.

Definition fetchStep :=
  fetchStep rootDomain Parse Parse ParseTime NewRequest (newCrawler Do)
    maxNumRedirects.

Definition FetchSequence :=
  FetchSequence rootDomain Parse Parse ParseTime NewRequest (newCrawler Do)
    maxNumRedirects.

Definition requested :=
  requested rootDomain Parse Parse ParseTime NewRequest (newCrawler Do)
    maxNumRedirects.

Definition run :=
  run rootDomain Parse Parse ParseTime NewRequest (newCrawler Do)
    maxNumRedirects.

End Example.


(** ** More of the example world

    A date that parses, responses that carry an [Expires] header, a body
    whose stream breaks, a request URL that [http.NewRequest] refuses and
    a client that answers with what it was sent. *)

Module Sample.

Definition ParseTime (text : string) : time.Time * option string :=
  match Example.assoc text
          [("Thu, 01 Jan 2026 00:00:00 GMT", time.mkTime 63902822400)] with
  | Some t => (t, None)
  | None => (time.zero, Some "cannot parse the time")
  end.

Definition NewRequest (method rawurl : string)
  : http.Request * option string :=
  if String.eqb rawurl "://a.example" then
    (http.mkRequest "" "" ∅, Some "missing protocol scheme")
  else (http.mkRequest method rawurl ∅, None).

Definition expiring (expires : string) : http.Response :=
  http.mkResponse "200 OK" 200
    {["Content-Type" := ["text/plain; charset=utf-8"];
      "Expires" := [expires]]}
    (ioutil.mkBody [Byte.x67; Byte.x6f] None) "http://a.example/ads.txt".

Definition interrupted : http.Response :=
  http.mkResponse "200 OK" 200 {["Content-Type" := ["text/plain"]]}
    (ioutil.mkBody [Byte.x67] (Some "unexpected EOF")) "".

Definition silent : http.Response :=
  http.mkResponse "302 Found" 302 ∅ (ioutil.mkBody [] None) "".

(** The client answers 200 and repeats the [User-Agent] it was sent as
    the status text. *)
Definition mirror (r : http.Request) : http.Response * option string :=
  (http.mkResponse (http.HeaderGet (http.RequestHeader r) "User-Agent") 200
     ∅ (ioutil.mkBody [] None) (http.Target r), None).

Definition down (r : http.Request) : http.Response * option string :=
  (silent, Some "connection refused").

(** What [net/url] answers for a bare host with a port and for one with
    the scheme in capitals: the scheme in lower case, and a host name
    without the port. *)
Definition Parse (rawurl : string) : url.URL * option string :=
  match Example.assoc rawurl
          [("http://a.example:8080",
            url.mkURL "http" "a.example:8080" "a.example");
           ("HTTP://a.example", url.mkURL "http" "a.example" "a.example")]
    with
  | Some u => (u, None)
  | None => (url.mkURL "" "" "", Some "invalid URI for request")
  end.

Definition rootDomain (rawurl : string) : string * option string :=
  match Example.assoc rawurl
          [("http://a.example/ads.txt", "a.example");
           ("http://a.example:8080", "a.example");
           ("HTTP://a.example", "a.example")] with
  | Some d => (d, None)
  | None => ("", Some "cannot derive the root domain")
  end.

End Sample.

(** * Properties *)

(** ** Library functions *)

Lemma length_append (p t : string) :
  String.length (p +:+ t) = (String.length p + String.length t)%nat.
Proof. induction p as [| a p IH]; simpl; [reflexivity | by rewrite IH]. Qed.

Lemma substring_whole (t : string) :
  String.substring 0 (String.length t) t = t.
Proof. induction t as [| a t IH]; simpl; [reflexivity | by rewrite IH]. Qed.

Lemma substring_skip (p t : string) n :
  String.substring (String.length p) n (p +:+ t) = String.substring 0 n t.
Proof. induction p as [| a p IH]; simpl; [reflexivity | exact IH]. Qed.

Lemma substring_split (s : string) n :
  (n <= String.length s)%nat ->
  s = String.substring 0 n s +:+ String.substring n (String.length s - n) s.
Proof.
  revert n. induction s as [| a s IH]; intros n Hn; simpl in *.
  - destruct n; [reflexivity | lia].
  - destruct n as [| n]; simpl.
    + by rewrite substring_whole.
    + change (String a s
              = String a (String.substring 0 n s
                          +:+ String.substring n (String.length s - n) s)).
      f_equal. apply IH. lia.
Qed.

(** [strings.HasSuffix] holds exactly of the strings that end with the
    suffix. *)
Lemma HasSuffix_spec (s suffix : string) :
  strings.HasSuffix s suffix = true <-> exists p, s = p +:+ suffix.
Proof.
  unfold strings.HasSuffix. rewrite andb_true_iff, Nat.leb_le, String.eqb_eq.
  split.
  - intros [Hlen Hsub].
    exists (String.substring 0 (String.length s - String.length suffix) s).
    pose proof (substring_split s (String.length s - String.length suffix))
      as H.
    replace (String.length s - (String.length s - String.length suffix))%nat
      with (String.length suffix) in H by lia.
    rewrite Hsub in H. apply H. lia.
  - intros [p ->]. rewrite length_append. split; [lia |].
    replace (String.length p + String.length suffix - String.length suffix)%nat
      with (String.length p) by lia.
    rewrite substring_skip. apply substring_whole.
Qed.

Lemma HasSuffix_false (s suffix : string) :
  strings.HasSuffix s suffix = false <-> forall p, s <> p +:+ suffix.
Proof.
  rewrite <- not_true_iff_false, HasSuffix_spec. split.
  - intros H p Hp. apply H. eauto.
  - intros H [p Hp]. exact (H p Hp).
Qed.

Lemma prefix_spec (p s : string) :
  String.prefix p s = true <-> exists rest, s = p +:+ rest.
Proof.
  revert s. induction p as [| a p IH]; intros s.
  - split; [eauto |]. intros _. destruct s; reflexivity.
  - destruct s as [| b s]; simpl.
    + split; [discriminate |]. intros [rest H]. discriminate H.
    + destruct (Ascii.ascii_dec a b) as [-> | Hne].
      * rewrite IH. split; intros [rest H]; exists rest.
        -- change (String b s = String b (p +:+ rest)). by rewrite <- H.
        -- change (String b s = String b (p +:+ rest)) in H. congruence.
      * split; [discriminate |]. intros [rest H].
        change (String b s = String a (p +:+ rest)) in H. congruence.
Qed.

Lemma index_zero_prefix (sub s : string) :
  String.index 0 sub s = Some 0%nat <-> String.prefix sub s = true.
Proof.
  destruct s as [| a s].
  - destruct sub; simpl; split; congruence.
  - change (String.index 0 sub (String a s))
      with (if String.prefix sub (String a s) then Some 0%nat
            else match String.index 0 sub s with
                 | Some n => Some (S n)
                 | None => None
                 end).
    destruct (String.prefix sub (String a s)); [tauto |].
    destruct (String.index 0 sub s); split; congruence.
Qed.

(** [strings.Index] answers 0 exactly for a prefix. *)
Lemma Index_zero (s sub : string) :
  strings.Index s sub = 0 <-> String.prefix sub s = true.
Proof.
  unfold strings.Index. rewrite <- index_zero_prefix.
  destruct (String.index 0 sub s) as [n |]; split; intros H;
    try discriminate; try lia.
  - f_equal. lia.
  - injection H as ->. reflexivity.
Qed.

(** [strings.Index] is not 0 exactly when the string does not start with
    the other. *)
Lemma Index_nonzero (s sub : string) :
  strings.Index s sub <> 0 <-> forall rest, s <> sub +:+ rest.
Proof.
  rewrite Index_zero, prefix_spec. split.
  - intros H rest Hr. apply H. eauto.
  - intros H [rest Hr]. exact (H rest Hr).
Qed.

Example HasSuffix_of_a_file :
  strings.HasSuffix "http://a.example/ads.txt" "/ads.txt" = true
  /\ strings.HasSuffix "http://a.example/ads.txt?x" "/ads.txt" = false
  /\ strings.HasSuffix "ads.txt" "/ads.txt" = false.
Proof. repeat split. Qed.

Example Index_of_a_content_type :
  strings.Index "text/plain; charset=utf-8" "text/plain" = 0
  /\ strings.Index "application/text/plain" "text/plain" = 12
  /\ strings.Index "" "text/plain" = -1.
Proof. repeat split. Qed.

Lemma HeaderGet_absent (h : gmap string (list string)) key :
  h !! key = None -> http.HeaderGet h key = "".
Proof. intros H. unfold http.HeaderGet. by rewrite H. Qed.

(** ** The redirect policy *)

Ltac go_unfold := unfold bind, ret, fail, Printf in *.

Section RedirectPolicy.

Variable rootDomain : string -> string * option string.
Variable ParseRequestURI : string -> url.URL * option string.
Variable Parse : string -> url.URL * option string.

Local Abbreviation policy := (handleRedirect rootDomain ParseRequestURI Parse).
Local Abbreviation location res :=
  (http.HeaderGet (http.Header res) "Location").
Local Abbreviation previous req := (fst (rootDomain (URL req))).
Local Abbreviation noted req res :=
  (LogRedirect (http.Status res) (URL req) (location res)).

(** The loop check comes first and leaves the log alone. *)
Lemma handleRedirect_loop req res l :
  location res = URL req ->
  policy req res l
  = (Err (errRedirectSameDomain (Domain req) (URL req) (URL req)), l).
Proof.
  intros Heq. unfold handleRedirect. go_unfold.
  rewrite Heq, String.eqb_refl. reflexivity.
Qed.

(** A target whose root domain cannot be derived. *)
Lemma handleRedirect_unresolved req res l cause d :
  location res <> URL req ->
  rootDomain (location res) = (d, Some cause) ->
  policy req res l
  = (Err (errFailToParseRedirect (Domain req) (URL req) (location res) cause),
     l ++ [noted req res]).
Proof.
  intros Hne Hd. unfold handleRedirect. go_unfold.
  destruct (String.eqb_spec (location res) (URL req)); [done |].
  rewrite Hd. reflexivity.
Qed.

(** A second hop out of the original root domain. *)
Lemma handleRedirect_exhausted req res l d :
  rootDomain (location res) = (d, None) ->
  d <> Domain req ->
  previous req <> Domain req ->
  previous req <> d ->
  policy req res l
  = (Err (errRedirectToDifferentDomain (Domain req) (previous req) d),
     l ++ [noted req res]).
Proof.
  intros Hd H1 H2 H3. unfold handleRedirect. go_unfold.
  destruct (String.eqb_spec (location res) (URL req)) as [Hloop |].
  { exfalso. apply H3. rewrite <- Hloop, Hd. reflexivity. }
  rewrite Hd.
  destruct (String.eqb_spec d (Domain req)); [done |].
  destruct (String.eqb_spec (previous req) (Domain req)); [done |].
  destruct (String.eqb_spec (previous req) d); [done |].
  reflexivity.
Qed.

(** A target within scope is judged by its shape. *)
Lemma handleRedirect_in_scope req res l d :
  location res <> URL req ->
  rootDomain (location res) = (d, None) ->
  d = Domain req \/ previous req = Domain req \/ previous req = d ->
  policy req res l
  = (targetShape ParseRequestURI Parse req (location res),
     l ++ [noted req res]).
Proof.
  intros Hne Hd Hscope. unfold handleRedirect, targetShape. go_unfold.
  destruct (String.eqb_spec (location res) (URL req)); [done |].
  rewrite Hd.
  assert (negb (String.eqb d (Domain req))
          && (negb (String.eqb (previous req) (Domain req))
              && negb (String.eqb (previous req) d)) = false) as Hs.
  { destruct (String.eqb_spec d (Domain req)),
             (String.eqb_spec (previous req) (Domain req)),
             (String.eqb_spec (previous req) d); simpl; tauto. }
  destruct (negb (String.eqb d (Domain req))); simpl in Hs |- *;
    rewrite ?Hs;
    destruct (strings.HasSuffix (location res) "/ads.txt"); simpl;
    try reflexivity;
    destruct (ParseRequestURI (location res)) as [u1 [e1 |]]; simpl;
    try reflexivity;
    destruct (Parse (location res)) as [u2 [e2 |]]; simpl;
    try reflexivity;
    destruct (String.eqb (url.Scheme u2) ""),
             (String.eqb (url.Host u2) ""); simpl; try reflexivity;
    destruct (String.eqb _ (location res)); reflexivity.
Qed.

Lemma targetShape_not_scope req redirect a b c :
  targetShape ParseRequestURI Parse req redirect
  <> Err (errRedirectToDifferentDomain a b c).
Proof.
  unfold targetShape.
  repeat match goal with
         | |- context [if ?b then _ else _] => destruct b
         end; discriminate.
Qed.

(** A target within scope is never refused for its domain. *)
Lemma handleRedirect_scope_passes req res l d a b c :
  rootDomain (location res) = (d, None) ->
  d = Domain req \/ previous req = Domain req \/ previous req = d ->
  fst (policy req res l) <> Err (errRedirectToDifferentDomain a b c).
Proof.
  intros Hd Hscope.
  destruct (decide (location res = URL req)) as [Heq | Hne].
  - rewrite handleRedirect_loop by done. discriminate.
  - rewrite (handleRedirect_in_scope _ _ _ d) by done.
    apply targetShape_not_scope.
Qed.

(** A target that is allowed is the value of the header and is not the
    URL it was asked from. *)
Lemma handleRedirect_allowed req res l target l' :
  policy req res l = (Ok target, l') ->
  target = location res /\ target <> URL req.
Proof.
  unfold handleRedirect. go_unfold.
  destruct (String.eqb_spec (location res) (URL req)) as [| Hne];
    [discriminate |].
  destruct (rootDomain (location res)) as [d [cause |]]; [discriminate |].
  repeat match goal with
         | |- context [let (_, _) := ?p in _] => destruct p
         | |- context [if ?b then _ else _] => destruct b
         | |- context [match ?r with Ok _ => _ | Err _ => _ end] =>
             destruct r
         end; simpl; intros H; inversion H; subst; auto.
Qed.

(** The log has no say in the answer. *)
Lemma handleRedirect_log req res l :
  fst (policy req res l) = fst (policy req res []).
Proof.
  unfold handleRedirect. go_unfold.
  destruct (String.eqb (location res) (URL req)); [reflexivity |].
  destruct (rootDomain (location res)) as [d [cause |]]; [reflexivity |].
  destruct (negb (String.eqb d (Domain req)));
    [destruct (_ && _); [reflexivity |] |];
    (destruct (negb (strings.HasSuffix (location res) "/ads.txt"));
     [| reflexivity];
     destruct (ParseRequestURI (location res)) as [u1 e1];
     destruct (notNil e1); [reflexivity |];
     destruct (Parse (location res)) as [u2 e2];
     destruct (_ || _); [reflexivity |];
     destruct (String.eqb _ (location res)); reflexivity).
Qed.

(** C1. When the root domain [d] of the target differs from the original
    domain, the redirect is refused as a second hop out of the original
    domain exactly when the root domain of the URL redirected from
    differs from the original domain too and [d] differs from it; when
    [d] is the original domain, or this is the first hop out of it, or
    [d] is the domain of the previous hop, the scope check passes. *)
Theorem scope_check_exhausted_iff req res l d :
  let target := http.HeaderGet (http.Header res) "Location" in
  let prevDomain := fst (rootDomain (URL req)) in
  let answer :=
    fst (handleRedirect rootDomain ParseRequestURI Parse req res l) in
  rootDomain target = (d, None) ->
  (d <> Domain req ->
   ((exists a b c, answer = Err (errRedirectToDifferentDomain a b c))
    <-> prevDomain <> Domain req /\ d <> prevDomain)
   /\ (prevDomain <> Domain req /\ d <> prevDomain ->
       answer = Err (errRedirectToDifferentDomain (Domain req) prevDomain d)))
  /\ (d = Domain req \/ prevDomain = Domain req \/ d = prevDomain ->
      forall a b c, answer <> Err (errRedirectToDifferentDomain a b c)).
Proof.
  intros target prevDomain answer Hd. subst target prevDomain answer. split.
  - intros Hout.
    assert (previous req <> Domain req /\ d <> previous req ->
            fst (policy req res l)
            = Err (errRedirectToDifferentDomain
                     (Domain req) (previous req) d)) as Hrej.
    { intros [H1 H2].
      rewrite (handleRedirect_exhausted _ _ _ d) by done. reflexivity. }
    split; [split |]; [| eauto | exact Hrej].
    intros (a & b & c & Hr).
    destruct (decide (previous req = Domain req)) as [E1 | N1].
    { exfalso. eapply handleRedirect_scope_passes; eauto. }
    destruct (decide (previous req = d)) as [E2 | N2].
    { exfalso. eapply handleRedirect_scope_passes; eauto. }
    split; congruence.
  - intros Hscope a b c.
    eapply handleRedirect_scope_passes; [exact Hd |].
    destruct Hscope as [H | [H | H]]; auto.
Qed.

(** C3. A target equal to the current URL of the request is refused as
    a redirect to the same page, whatever the domains are. *)
Theorem same_location_rejected url domain res l :
  http.HeaderGet (http.Header res) "Location" = url ->
  fst (handleRedirect rootDomain ParseRequestURI Parse
         (mkRequest url domain) res l)
  = Err (errRedirectSameDomain domain url
           (http.HeaderGet (http.Header res) "Location")).
Proof.
  intros Heq. rewrite handleRedirect_loop by done. simpl. by rewrite Heq.
Qed.


(** C7, amended. Once the sequence is out of the original domain, a
    redirect whose target root domain differs from the domain of the
    previous hop and from the original domain is refused; a redirect
    back to the original domain passes the scope check. *)
Theorem off_domain_redirects req res l d :
  let target := http.HeaderGet (http.Header res) "Location" in
  let prevDomain := fst (rootDomain (URL req)) in
  let answer :=
    fst (handleRedirect rootDomain ParseRequestURI Parse req res l) in
  rootDomain target = (d, None) ->
  prevDomain <> Domain req ->
  (d <> prevDomain -> d <> Domain req ->
   answer = Err (errRedirectToDifferentDomain (Domain req) prevDomain d))
  /\ (d = Domain req ->
      forall a b c, answer <> Err (errRedirectToDifferentDomain a b c)).
Proof.
  intros target prevDomain answer Hd Hoff. subst target prevDomain answer.
  split.
  - intros H1 H2.
    rewrite (handleRedirect_exhausted _ _ _ d) by done. reflexivity.
  - intros H a b c. eapply handleRedirect_scope_passes; eauto.
Qed.

End RedirectPolicy.

(** C9. The loop check is the first one: for a target equal to the current
    URL of the request the answer is the same-page error, nothing is
    logged, and neither the root-domain resolution nor the URL parsers
    have a say, whatever they would answer for the target. *)
Theorem loop_check_first req res l :
  http.HeaderGet (http.Header res) "Location" = URL req ->
  forall rootDomain ParseRequestURI Parse,
    handleRedirect rootDomain ParseRequestURI Parse req res l
    = (Err (errRedirectSameDomain (Domain req) (URL req) (URL req)), l).
Proof.
  intros Heq rootDomain ParseRequestURI Parse.
  unfold handleRedirect. go_unfold.
  rewrite Heq, String.eqb_refl. reflexivity.
Qed.

(** C10. A target that ends with [/ads.txt] and passes the loop check and
    the checks on its domain is allowed and returned as it is, whatever
    the URL parsers would say of it: they are not asked. *)
Theorem adstxt_target_allowed rootDomain req res l d :
  let target := http.HeaderGet (http.Header res) "Location" in
  let prevDomain := fst (rootDomain (URL req)) in
  target <> URL req ->
  rootDomain target = (d, None) ->
  d = Domain req \/ prevDomain = Domain req \/ prevDomain = d ->
  (exists p, target = p +:+ "/ads.txt") ->
  forall ParseRequestURI Parse,
    handleRedirect rootDomain ParseRequestURI Parse req res l
    = (Ok target, l ++ [LogRedirect (http.Status res) (URL req) target]).
Proof.
  intros target prevDomain Hne Hd Hscope Hsuf ParseRequestURI Parse.
  apply HasSuffix_spec in Hsuf.
  rewrite (handleRedirect_in_scope _ _ _ _ _ _ d) by done.
  unfold targetShape. fold target. rewrite Hsuf. reflexivity.
Qed.

(** ** Reading the body *)

Lemma readBody_bad_content_type req res :
  (forall rest,
      http.HeaderGet (http.Header res) "Content-Type"
      <> "text/plain" +:+ rest) ->
  readBody req res
  = (Err (errHTTPBadContentType (URL req)
            (http.HeaderGet (http.Header res) "Content-Type")),
     http.Body res).
Proof.
  intros Hp. unfold readBody.
  destruct (Z.eqb_spec
              (strings.Index (http.HeaderGet (http.Header res) "Content-Type")
                 "text/plain") 0) as [H0 | H0]; [| reflexivity].
  apply Index_nonzero in Hp. contradiction.
Qed.

(** C5. A response whose [Content-Type] does not start with [text/plain],
    an absent header included, makes [readBody] return the content-type
    error and leaves the body as it was, unread; so it is for a 200
    response of type [application/octet-stream]. *)
Theorem readBody_rejects_other_types req res :
  let contentType := http.HeaderGet (http.Header res) "Content-Type" in
  ((forall rest, contentType <> "text/plain" +:+ rest) ->
   readBody req res
   = (Err (errHTTPBadContentType (URL req) contentType), http.Body res))
  /\ (http.Header res !! "Content-Type" = None ->
      readBody req res
      = (Err (errHTTPBadContentType (URL req) ""), http.Body res))
  /\ (http.StatusCode res = 200 ->
      contentType = "application/octet-stream" ->
      readBody req res
      = (Err (errHTTPBadContentType (URL req) "application/octet-stream"),
         http.Body res)).
Proof.
  intros contentType. subst contentType. split; [| split].
  - apply readBody_bad_content_type.
  - intros Habs. apply HeaderGet_absent in Habs.
    rewrite readBody_bad_content_type; rewrite Habs; [reflexivity |].
    discriminate.
  - intros _ Hct.
    rewrite readBody_bad_content_type; rewrite Hct; [reflexivity |].
    discriminate.
Qed.

(** ** The fetch sequence *)

Section Sequence.

Variable rootDomain : string -> string * option string.
Variable ParseRequestURI : string -> url.URL * option string.
Variable Parse : string -> url.URL * option string.
Variable ParseTime : string -> time.Time * option string.
Variable NewRequest : string -> string -> http.Request * option string.
Variable c : crawler.
Variable maxNumRedirects : nat.

Local Abbreviation policy := (handleRedirect rootDomain ParseRequestURI Parse).
Local Abbreviation step :=
  (fetchStep rootDomain ParseRequestURI Parse ParseTime NewRequest c
     maxNumRedirects).
Local Abbreviation sequence :=
  (FetchSequence rootDomain ParseRequestURI Parse ParseTime NewRequest c
     maxNumRedirects).
Local Abbreviation visits :=
  (requested rootDomain ParseRequestURI Parse ParseTime NewRequest c
     maxNumRedirects).
Local Abbreviation location res :=
  (http.HeaderGet (http.Header res) "Location").
Local Abbreviation expiresOf res :=
  (http.HeaderGet (http.Header res) "Expires").

(** A turn that goes on has followed a redirect to a URL that was not
    visited before, which it records, and has counted it. *)
Lemma fetchStep_redirected domain st l st' l' :
  step domain st l = (Ok (inl st'), l') ->
  CurrentURL st' <> CurrentURL st
  /\ (CurrentURL st' ∉ VisitedURLs st)
  /\ VisitedURLs st' = {[CurrentURL st']} ∪ VisitedURLs st
  /\ Redirects st' = S (Redirects st)
  /\ (Redirects st < maxNumRedirects)%nat.
Proof.
  unfold fetchStep. go_unfold.
  destruct (sendRequest NewRequest c _) as [res | e]; [| discriminate].
  destruct (isRedirect (http.StatusCode res)).
  - destruct (policy _ res l) as [[target | e] l1] eqn:Hp; [| discriminate].
    apply handleRedirect_allowed in Hp as [_ Hmove]. simpl in Hmove.
    case_bool_decide as Hseen; [discriminate |].
    destruct (_ && _); [discriminate |].
    destruct (Nat.leb_spec maxNumRedirects (Redirects st)); [discriminate |].
    intros Hst. inversion Hst; subst. simpl. auto.
  - destruct (negb (isSuccess (http.StatusCode res))); [discriminate |].
    destruct (readBody _ res) as [[body | e] rest]; [| discriminate].
    destruct (parseExpires ParseTime res l). discriminate.
Qed.

Lemma fetchStep_moves domain st l st' l' :
  step domain st l = (Ok (inl st'), l') ->
  CurrentURL st' <> CurrentURL st.
Proof. intros H. by apply fetchStep_redirected in H as [? _]. Qed.

Lemma requested_head n domain st l u :
  visits n domain st l !! 0%nat = Some u -> u = CurrentURL st.
Proof. destruct n; simpl; congruence. Qed.

(** A redirect to the URL just requested ends the turn with an error. *)
Lemma fetchStep_loop domain st l res :
  sendRequest NewRequest c (mkRequest (CurrentURL st) domain) = Ok res ->
  isRedirect (http.StatusCode res) = true ->
  location res = CurrentURL st ->
  step domain st l
  = (Err (errRedirectSameDomain domain (CurrentURL st) (CurrentURL st)), l).
Proof.
  intros Hs Hr Hl. unfold fetchStep. rewrite Hs, Hr.
  unfold bind. rewrite handleRedirect_loop by done. reflexivity.
Qed.

(** So does a redirect to a URL visited before. *)
Lemma fetchStep_revisit domain st l res :
  sendRequest NewRequest c (mkRequest (CurrentURL st) domain) = Ok res ->
  isRedirect (http.StatusCode res) = true ->
  location res ∈ VisitedURLs st ->
  exists e l', step domain st l = (Err e, l').
Proof.
  intros Hs Hr Hseen. unfold fetchStep. rewrite Hs, Hr. go_unfold.
  destruct (policy _ res l) as [[target | e] l1] eqn:Hp; [| eauto].
  apply handleRedirect_allowed in Hp as [-> _].
  rewrite bool_decide_eq_true_2 by done. eauto.
Qed.

(** The URLs requested from a state on are its current URL and then URLs
    that were not visited before, each once. *)
Lemma requested_fresh fuel domain st l :
  CurrentURL st ∈ VisitedURLs st ->
  NoDup (visits fuel domain st l)
  /\ forall u,
      u ∈ visits fuel domain st l ->
      u = CurrentURL st \/ u ∉ VisitedURLs st.
Proof.
  revert st l. induction fuel as [| fuel IH]; intros st l Hin; simpl.
  { split; [constructor |]. intros u Hu. by apply elem_of_nil in Hu. }
  destruct (step domain st l) as [[[st' | r] | e] l'] eqn:Hstep.
  - apply fetchStep_redirected in Hstep as (Hne & Hnew & Hset & _).
    destruct (IH st' l') as [Hnodup Hfresh].
    { rewrite Hset. apply elem_of_union_l. by apply elem_of_singleton. }
    split.
    + apply NoDup_cons. split; [| done].
      intros Hu. destruct (Hfresh _ Hu) as [Heq | Hout].
      * congruence.
      * apply Hout. rewrite Hset. by apply elem_of_union_r.
    + intros u Hu. apply elem_of_cons in Hu as [-> | Hu]; [by left |].
      right. destruct (Hfresh _ Hu) as [-> | Hout]; [done |].
      intros Hv. apply Hout. rewrite Hset. by apply elem_of_union_r.
  - split; [apply NoDup_singleton |].
    intros u Hu. apply list_elem_of_singleton in Hu. by left.
  - split; [apply NoDup_singleton |].
    intros u Hu. apply list_elem_of_singleton in Hu. by left.
Qed.

(** C2. Within one fetch sequence no URL is requested twice: a redirect
    to the current URL of the request ends the sequence with the
    same-page error, and a redirect to any URL visited before, which
    closes a longer cycle, ends it with an error too. *)
Theorem no_url_requested_twice :
  (forall req fuel l,
      NoDup (requested rootDomain ParseRequestURI Parse ParseTime NewRequest
               c maxNumRedirects fuel (Domain req) (start req) l))
  /\ (forall domain st l res fuel,
         sendRequest NewRequest c (mkRequest (CurrentURL st) domain)
         = Ok res ->
         isRedirect (http.StatusCode res) = true ->
         http.HeaderGet (http.Header res) "Location" = CurrentURL st ->
         FetchSequence rootDomain ParseRequestURI Parse ParseTime NewRequest
           c maxNumRedirects (S fuel) domain st l
         = (Err (errRedirectSameDomain domain (CurrentURL st)
                   (CurrentURL st)), l))
  /\ (forall domain st l res fuel,
         sendRequest NewRequest c (mkRequest (CurrentURL st) domain)
         = Ok res ->
         isRedirect (http.StatusCode res) = true ->
         http.HeaderGet (http.Header res) "Location" ∈ VisitedURLs st ->
         exists e,
           fst (FetchSequence rootDomain ParseRequestURI Parse ParseTime
                  NewRequest c maxNumRedirects (S fuel) domain st l)
           = Err e).
Proof.
  split; [| split].
  - intros req fuel l. apply requested_fresh. simpl. set_solver.
  - intros domain st l res fuel Hs Hr Hl. simpl. unfold bind.
    rewrite (fetchStep_loop _ _ _ res) by done. reflexivity.
  - intros domain st l res fuel Hs Hr Hseen. simpl. unfold bind.
    destruct (fetchStep_revisit domain st l res Hs Hr Hseen)
      as (e & l' & ->).
    eauto.
Qed.

Lemma success_not_redirect code :
  isSuccess code = true -> isRedirect code = false.
Proof. unfold isSuccess, isRedirect. lia. Qed.

(** [parseExpires] fails on a missing and on an unparsable header. *)
Lemma parseExpires_fails res l :
  http.Header res !! "Expires" = None
  \/ expiresOf res = ""
  \/ notNil (ParseTime (expiresOf res)).2 = true ->
  exists e l', parseExpires ParseTime res l = (Err e, l').
Proof.
  intros H. unfold parseExpires. go_unfold.
  destruct (String.length (expiresOf res) =? 0)%nat eqn:Hlen; [eauto |].
  destruct H as [H | [H | H]].
  - apply HeaderGet_absent in H. rewrite H in Hlen. discriminate.
  - rewrite H in Hlen. discriminate.
  - destruct (ParseTime (expiresOf res)) as [t [cause |]]; [eauto |].
    discriminate.
Qed.

(** C6. A response with a success status, whose body is read without
    error, and whose [Expires] header is missing or does not parse
    completes the sequence with a response: the body is there and only
    [Expires] is unset, although [parseExpires] returned an error. *)
Theorem expires_failure_not_fatal domain st l res body rest fuel :
  let expires := http.HeaderGet (http.Header res) "Expires" in
  sendRequest NewRequest c (mkRequest (CurrentURL st) domain) = Ok res ->
  isSuccess (http.StatusCode res) = true ->
  readBody (mkRequest (CurrentURL st) domain) res = (Ok body, rest) ->
  http.Header res !! "Expires" = None
  \/ expires = ""
  \/ notNil (ParseTime expires).2 = true ->
  (exists e, fst (parseExpires ParseTime res l) = Err e)
  /\ fst (FetchSequence rootDomain ParseRequestURI Parse ParseTime NewRequest
            c maxNumRedirects (S fuel) domain st l)
     = Ok (Some (mkResponse (CurrentURL st) (http.StatusCode res)
                   (http.HeaderGet (http.Header res) "Content-Type")
                   body None)).
Proof.
  intros expires Hs Hok Hb Hexp.
  pose proof (success_not_redirect _ Hok) as Hr.
  destruct (parseExpires_fails res l Hexp) as (e & l' & He).
  split; [exists e; by rewrite He |].
  simpl. unfold bind, fetchStep. rewrite Hs, Hr, Hok, Hb. simpl.
  rewrite He. reflexivity.
Qed.

(** *** The log has no say in the result *)

Lemma parseExpires_log res l :
  fst (parseExpires ParseTime res l) = fst (parseExpires ParseTime res []).
Proof.
  unfold parseExpires. go_unfold.
  destruct (String.length (expiresOf res) =? 0)%nat; [reflexivity |].
  destruct (ParseTime (expiresOf res)) as [t [cause |]]; reflexivity.
Qed.

Lemma fetchStep_log domain st l :
  fst (step domain st l) = fst (step domain st []).
Proof.
  unfold fetchStep. go_unfold.
  destruct (sendRequest NewRequest c _) as [res | e]; [| reflexivity].
  destruct (isRedirect (http.StatusCode res)).
  - pose proof (handleRedirect_log rootDomain ParseRequestURI Parse
                  (mkRequest (CurrentURL st) domain) res l) as H.
    destruct (policy _ res l) as [r1 l1], (policy _ res []) as [r2 l2].
    simpl in H. subst r2. destruct r1 as [target | e]; [| reflexivity].
    destruct (bool_decide _); [reflexivity |].
    destruct (_ && _); [reflexivity |].
    destruct (_ <=? _)%nat; reflexivity.
  - destruct (negb (isSuccess (http.StatusCode res))); [reflexivity |].
    destruct (readBody _ res) as [[body | e] rest]; [| reflexivity].
    pose proof (parseExpires_log res l) as H.
    destruct (parseExpires ParseTime res l) as [r1 l1],
             (parseExpires ParseTime res []) as [r2 l2].
    simpl in H. subst r2. reflexivity.
Qed.

Lemma FetchSequence_log fuel domain st l :
  fst (sequence fuel domain st l) = fst (sequence fuel domain st []).
Proof.
  revert st l. induction fuel as [| fuel IH]; intros st l; [reflexivity |].
  simpl. unfold bind.
  pose proof (fetchStep_log domain st l) as H.
  destruct (step domain st l) as [r1 l1], (step domain st []) as [r2 l2].
  simpl in H. subst r2.
  destruct r1 as [[st' | r] | e]; try reflexivity.
  rewrite (IH st' l1), (IH st' l2). reflexivity.
Qed.

(** *** Every sequence completes *)

(** With [n] redirects left before the maximum, [n] turns and one more
    end the sequence. *)
Lemma FetchSequence_completes n domain st l :
  (maxNumRedirects <= Redirects st + n)%nat ->
  fst (sequence (S n) domain st l) <> Ok None.
Proof.
  revert st l. induction n as [| n IH]; intros st l Hn;
    simpl; unfold bind;
    destruct (step domain st l) as [[[st' | r] | e] l'] eqn:Hstep;
    simpl; try discriminate;
    apply fetchStep_redirected in Hstep as (_ & _ & _ & Hcount & Hleft).
  - lia.
  - apply IH. lia.
Qed.

Lemma outcome_total r :
  exists o,
    outcome rootDomain ParseRequestURI Parse ParseTime NewRequest c
      maxNumRedirects (S maxNumRedirects) r
    = Some o.
Proof.
  unfold outcome.
  pose proof (FetchSequence_completes maxNumRedirects (Domain r) (start r) [])
    as H.
  destruct (fst (sequence (S maxNumRedirects) (Domain r) (start r) []))
    as [[resp |] | e]; eauto.
  exfalso. apply H; [simpl; lia | reflexivity].
Qed.

(** *** The batch *)

Local Abbreviation go :=
  (run rootDomain ParseRequestURI Parse ParseTime NewRequest c
     maxNumRedirects).
Local Abbreviation next :=
  (advance rootDomain ParseRequestURI Parse ParseTime NewRequest c
     maxNumRedirects).
Local Abbreviation solo :=
  (alone rootDomain ParseRequestURI Parse ParseTime NewRequest c
     maxNumRedirects).
Local Abbreviation solo_step :=
  (alone_step rootDomain ParseRequestURI Parse ParseTime NewRequest c
     maxNumRedirects).
Local Abbreviation turns schedule i := (count_occ Nat.eq_dec schedule i).

Lemma run_snoc schedule j b : go (schedule ++ [j]) b = next (go schedule b) j.
Proof. unfold run. by rewrite fold_left_app. Qed.

Lemma calls_snoc_other i j r o b hs l :
  i <> j ->
  calls i (mkBatch hs (handled b ++ [(j, r, o)]) l) = calls i b.
Proof.
  intros Hne. unfold calls. simpl. rewrite filter_app, filter_cons_False.
  - by rewrite filter_nil, app_nil_r.
  - simpl. congruence.
Qed.

Lemma calls_snoc_same i r o b hs l :
  calls i (mkBatch hs (handled b ++ [(i, r, o)]) l) = calls i b ++ [(i, r, o)].
Proof.
  unfold calls. simpl. rewrite filter_app, filter_cons_True by done.
  by rewrite filter_nil.
Qed.

Lemma turns_snoc schedule j i :
  turns (schedule ++ [j]) i
  = if decide (j = i) then S (turns schedule i) else turns schedule i.
Proof.
  rewrite count_occ_app. simpl.
  destruct (Nat.eq_dec j i), (decide (j = i)); try done; lia.
Qed.

(** Every task of a batch is where it would be on its own after as many
    steps as the schedule gave it, and the handler has been called for
    it once if it is delivered and not at all otherwise. *)
Lemma run_invariant requests schedule :
  let b := go schedule (spawn requests) in
  length (tasks b) = length requests
  /\ forall i r,
      requests !! i = Some r ->
      tasks b !! i = Some (r, solo r (turns schedule i))
      /\ calls i b = given i r (solo r (turns schedule i)).
Proof.
  induction schedule as [| j schedule IH] using rev_ind; simpl.
  - split; [unfold spawn; simpl; by rewrite length_map |].
    intros i r Hi. unfold spawn, calls. simpl.
    rewrite list_lookup_fmap, Hi. done.
  - destruct IH as [Hlen IH]. rewrite run_snoc.
    set (b := go schedule (spawn requests)) in *.
    unfold advance.
    destruct (tasks b !! j) as [[rj tj] |] eqn:Hj.
    + assert (requests !! j = Some rj /\ tj = solo rj (turns schedule j)
              /\ calls j b = given j rj tj) as (Hrj & Htj & Hcj).
      { destruct (requests !! j) as [r |] eqn:Hr.
        - destruct (IH j r Hr) as [H1 H2]. rewrite Hj in H1.
          injection H1 as -> ->. done.
        - apply lookup_ge_None in Hr. apply lookup_lt_Some in Hj. lia. }
      assert (solo rj (S (turns schedule j)) = solo_step rj tj) as Hstep.
      { rewrite Htj. reflexivity. }
      destruct tj as [st | o | o].
      * pose proof (fetchStep_log (Domain rj) st (logged b)) as Hlog.
        destruct (step (Domain rj) st (logged b)) as [nxt l'].
        simpl in Hlog |- *. rewrite length_insert. split; [done |].
        intros i r Hi. rewrite turns_snoc. destruct (IH i r Hi) as [H1 H2].
        case_decide as Hij.
        -- subst i. rewrite Hi in Hrj. injection Hrj as <-.
           rewrite list_lookup_insert_eq by (by eapply lookup_lt_Some).
           rewrite Hstep. simpl. rewrite <- Hlog.
           split; [done |].
           unfold calls in *. simpl. rewrite Hcj.
           by destruct nxt as [[? | ?] | ?].
        -- rewrite list_lookup_insert_ne by done. done.
      * simpl. rewrite length_insert. split; [done |].
        intros i r Hi. rewrite turns_snoc. destruct (IH i r Hi) as [H1 H2].
        case_decide as Hij.
        -- subst i. rewrite Hi in Hrj. injection Hrj as <-.
           rewrite list_lookup_insert_eq by (by eapply lookup_lt_Some).
           rewrite Hstep. simpl. split; [done |].
           rewrite calls_snoc_same, Hcj. done.
        -- rewrite list_lookup_insert_ne by done.
           rewrite calls_snoc_other by done. done.
      * split; [done |].
        intros i r Hi. rewrite turns_snoc. destruct (IH i r Hi) as [H1 H2].
        case_decide as Hij; [| done].
        subst i. rewrite Hi in Hrj. injection Hrj as <-.
        rewrite Hstep. simpl. done.
    + split; [done |].
      intros i r Hi. rewrite turns_snoc. destruct (IH i r Hi) as [H1 H2].
      case_decide as Hij; [| done].
      subst i. rewrite Hj in H1. discriminate.
Qed.

Lemma alone_step_completed r o n :
  Nat.iter (S n) (solo_step r) (Completed o) = Delivered o.
Proof. induction n as [| n IH]; [reflexivity |]. simpl in *. by rewrite IH. Qed.

(** A sequence that completes within [fuel] turns is a task that is
    completed after at most [fuel] steps on its own. *)
Lemma sequence_alone r fuel st o :
  match fst (sequence fuel (Domain r) st []) with
  | Ok (Some resp) => Some (Fetched resp)
  | Ok None => None
  | Err e => Some (Failed e)
  end = Some o ->
  exists m, (1 <= m <= fuel)%nat
            /\ Nat.iter m (solo_step r) (Running st) = Completed o.
Proof.
  revert st. induction fuel as [| fuel IH]; intros st; [discriminate |].
  simpl. unfold bind.
  destruct (step (Domain r) st []) as [[[st' | resp] | e] l1] eqn:Hstep.
  - rewrite FetchSequence_log. intros H.
    destruct (IH st' H) as (m & Hm & Hiter).
    exists (S m). split; [lia |].
    rewrite Nat.iter_succ_r. simpl. rewrite Hstep. exact Hiter.
  - simpl. intros H. injection H as <-.
    exists 1%nat. split; [lia |]. simpl. by rewrite Hstep.
  - simpl. intros H. injection H as <-.
    exists 1%nat. split; [lia |]. simpl. by rewrite Hstep.
Qed.

Lemma alone_delivered r fuel o k :
  outcome rootDomain ParseRequestURI Parse ParseTime NewRequest c
    maxNumRedirects fuel r
  = Some o ->
  (fuel < k)%nat -> solo r k = Delivered o.
Proof.
  intros Ho Hk. apply sequence_alone in Ho as (m & Hm & Hiter).
  unfold alone. replace k with (S (k - m - 1) + m)%nat by lia.
  rewrite Nat.iter_add, Hiter. apply alone_step_completed.
Qed.

Lemma run_app schedule more b :
  go (schedule ++ more) b = go more (go schedule b).
Proof. unfold run. by rewrite fold_left_app. Qed.

Lemma turns_seq first n i :
  turns (seq first n) i
  = if decide (first <= i < first + n)%nat then 1%nat else 0%nat.
Proof.
  revert first. induction n as [| n IH]; intros first; simpl.
  - case_decide; [lia | done].
  - rewrite IH. destruct (Nat.eq_dec first i); repeat case_decide; lia.
Qed.

(** In turns, every task gets its [k] steps. *)
Lemma turns_inTurns n k i : (i < n)%nat -> turns (inTurns n k) i = k.
Proof.
  intros Hi. unfold inTurns. induction k as [| k IH]; [reflexivity |].
  simpl. rewrite count_occ_app, IH, turns_seq.
  case_decide; lia.
Qed.


End Sequence.

(** ** The properties on the example world *)

(** The second and the third scenario of the spec. *)
Example scenario_redirect_within_domain :
  outcome Example.rootDomain Example.Parse Example.Parse Example.ParseTime
    Example.NewRequest (newCrawler Example.scenarios)
    Example.maxNumRedirects 2 (mkRequest "http://a.example" "a.example")
  = Some (Fetched (mkResponse "http://a.example/ads.txt" 200 "text/plain"
                     [Byte.x67] None)).
Proof. reflexivity. Qed.

Example scenario_second_hop_out :
  outcome Example.rootDomain Example.Parse Example.Parse Example.ParseTime
    Example.NewRequest (newCrawler Example.scenarios)
    Example.maxNumRedirects 2 (mkRequest "http://b.example" "b.example")
  = Some (Failed (errRedirectToDifferentDomain "b.example" "c.example"
                    "d.example")).
Proof. reflexivity. Qed.

(** From [b.example], reached from [a.example], on to [c.example]. *)
Lemma scope_check_exhausted_iff_witness :
  fst (Example.handleRedirect
         (mkRequest "http://b.example/ads.txt" "a.example")
         (Example.found "http://c.example/ads.txt") [])
  = Err (errRedirectToDifferentDomain "a.example" "b.example" "c.example").
Proof.
  destruct (scope_check_exhausted_iff Example.rootDomain Example.Parse
              Example.Parse
              (mkRequest "http://b.example/ads.txt" "a.example")
              (Example.found "http://c.example/ads.txt") []
              "c.example" eq_refl) as [H _].
  destruct H as [_ H]; [discriminate |].
  apply H. split; discriminate.
Defined.

Lemma same_location_rejected_witness :
  fst (Example.handleRedirect (mkRequest "http://a.example" "b.example")
         (Example.found "http://a.example") [])
  = Err (errRedirectSameDomain "b.example" "http://a.example"
           "http://a.example").
Proof.
  exact (same_location_rejected Example.rootDomain Example.Parse
           Example.Parse "http://a.example" "b.example"
           (Example.found "http://a.example") [] eq_refl).
Defined.



(** C7, as stated, fails: from [b.example], reached from [a.example],
    back to [a.example] is allowed. *)
Lemma bounce_back_allowed :
  let req := mkRequest "http://b.example/ads.txt" "a.example" in
  let res := Example.found "http://a.example/ads.txt" in
  fst (Example.rootDomain (URL req)) = "b.example"
  /\ fst (Example.rootDomain (URL req)) <> Domain req
  /\ Example.rootDomain (http.HeaderGet (http.Header res) "Location")
     = ("a.example", None)
  /\ "a.example" <> fst (Example.rootDomain (URL req))
  /\ fst (handleRedirect Example.rootDomain Example.Parse Example.Parse
            req res [])
     = Ok "http://a.example/ads.txt".
Proof. repeat split; try reflexivity; discriminate. Qed.

Lemma off_domain_redirects_witness :
  fst (Example.handleRedirect
         (mkRequest "http://b.example/ads.txt" "a.example")
         (Example.found "http://c.example/ads.txt") [])
  = Err (errRedirectToDifferentDomain "a.example" "b.example" "c.example")
  /\ fst (Example.handleRedirect
            (mkRequest "http://b.example/ads.txt" "a.example")
            (Example.found "http://a.example/ads.txt") [])
     <> Err (errRedirectToDifferentDomain "a.example" "b.example"
               "a.example").
Proof.
  split.
  - refine (proj1 (off_domain_redirects Example.rootDomain Example.Parse
                     Example.Parse
                     (mkRequest "http://b.example/ads.txt" "a.example")
                     (Example.found "http://c.example/ads.txt") []
                     "c.example" eq_refl _) _ _);
      discriminate.
  - refine (proj2 (off_domain_redirects Example.rootDomain Example.Parse
                     Example.Parse
                     (mkRequest "http://b.example/ads.txt" "a.example")
                     (Example.found "http://a.example/ads.txt") []
                     "a.example" eq_refl _)
              eq_refl _ _ _).
    discriminate.
Defined.

(** A target that nothing can resolve or parse, equal to the current URL. *)
Lemma loop_check_first_witness :
  Example.rootDomain "ftp://nowhere"
  = ("", Some "cannot derive the root domain")
  /\ Example.handleRedirect (mkRequest "ftp://nowhere" "a.example")
       (Example.found "ftp://nowhere") []
     = (Err (errRedirectSameDomain "a.example" "ftp://nowhere"
               "ftp://nowhere"), []).
Proof.
  split; [reflexivity |].
  exact (loop_check_first (mkRequest "ftp://nowhere" "a.example")
           (Example.found "ftp://nowhere") [] eq_refl
           Example.rootDomain Example.Parse Example.Parse).
Defined.

(** The second scenario of the spec: from the bare host to its
    [/ads.txt]. *)
Lemma adstxt_target_allowed_witness :
  Example.handleRedirect (mkRequest "http://a.example" "a.example")
    (Example.found "http://a.example/ads.txt") []
  = (Ok "http://a.example/ads.txt",
     [LogRedirect "302 Found" "http://a.example" "http://a.example/ads.txt"]).
Proof.
  refine (adstxt_target_allowed Example.rootDomain
            (mkRequest "http://a.example" "a.example")
            (Example.found "http://a.example/ads.txt") [] "a.example"
            _ eq_refl _ _ Example.Parse Example.Parse).
  - discriminate.
  - left. reflexivity.
  - exists "http://a.example". reflexivity.
Defined.

(** A 200 response of type [application/octet-stream], and a response
    without a content type. *)
Lemma readBody_rejects_other_types_witness :
  let req := mkRequest "http://b.example/ads.txt" "b.example" in
  let res := Example.page "application/octet-stream" [Byte.x67] in
  readBody req res
  = (Err (errHTTPBadContentType "http://b.example/ads.txt"
            "application/octet-stream"),
     ioutil.mkBody [Byte.x67] None)
  /\ readBody req (Example.found "http://a.example/ads.txt")
     = (Err (errHTTPBadContentType "http://b.example/ads.txt" ""),
        ioutil.mkBody [] None).
Proof.
  intros req res. split.
  - exact (proj2 (proj2 (readBody_rejects_other_types req res))
             eq_refl eq_refl).
  - exact (proj1 (proj2 (readBody_rejects_other_types req
                           (Example.found "http://a.example/ads.txt")))
             eq_refl).
Defined.

(** Of two addresses of one site that redirect to each other,
    [handleRedirect] allows either hop: it is given the current URL only,
    and leaves a cycle of more than one hop to the sequence. *)
Example handleRedirect_allows_each_hop :
  fst (handleRedirect Example.rootDomain Example.Parse Example.Parse
         (mkRequest "http://a.example/ads.txt" "a.example")
         (Example.found "http://www.a.example/ads.txt") [])
  = Ok "http://www.a.example/ads.txt"
  /\ fst (handleRedirect Example.rootDomain Example.Parse Example.Parse
            (mkRequest "http://www.a.example/ads.txt" "a.example")
            (Example.found "http://a.example/ads.txt") [])
     = Ok "http://a.example/ads.txt".
Proof. split; reflexivity. Qed.

(** The two addresses that redirect to each other: the sequence requests
    each once and ends with an error at the redirect back to the first;
    and the host that redirects to itself. *)
Lemma no_url_requested_twice_witness :
  let req := mkRequest "http://a.example/ads.txt" "a.example" in
  Example.requested 5 "a.example" (start req) []
  = ["http://a.example/ads.txt"; "http://www.a.example/ads.txt"]
  /\ NoDup (Example.requested 5 "a.example" (start req) [])
  /\ (exists e,
         fst (Example.FetchSequence 1 "a.example"
                (mkState "http://www.a.example/ads.txt" false
                   {["http://www.a.example/ads.txt";
                     "http://a.example/ads.txt"]} 1) [])
         = Err e)
  /\ Example.FetchSequence 1 "c.example"
       (start (mkRequest "http://c.example/ads.txt" "c.example")) []
     = (Err (errRedirectSameDomain "c.example" "http://c.example/ads.txt"
               "http://c.example/ads.txt"), []).
Proof.
  pose proof (no_url_requested_twice Example.rootDomain Example.Parse
                Example.Parse Example.ParseTime Example.NewRequest
                (newCrawler Example.Do) Example.maxNumRedirects)
    as (Hnodup & Hself & Hcycle).
  intros req. split; [reflexivity |].
  split; [exact (Hnodup req 5%nat []) |]. split.
  - refine (Hcycle "a.example"
              (mkState "http://www.a.example/ads.txt" false
                 {["http://www.a.example/ads.txt";
                   "http://a.example/ads.txt"]} 1) []
              (Example.found "http://a.example/ads.txt") 0%nat
              eq_refl eq_refl _).
    vm_compute. set_solver.
  - exact (Hself "c.example"
             (start (mkRequest "http://c.example/ads.txt" "c.example")) []
             (Example.found "http://c.example/ads.txt") 0%nat
             eq_refl eq_refl eq_refl).
Defined.

(** A file served as [text/plain] without an [Expires] header. *)
Lemma expires_failure_not_fatal_witness :
  fst (Example.FetchSequence 1 "b.example"
         (start (mkRequest "http://b.example/ads.txt" "b.example")) [])
  = Ok (Some (mkResponse "http://b.example/ads.txt" 200 "text/plain"
                [Byte.x67] None)).
Proof.
  refine (proj2 (expires_failure_not_fatal Example.rootDomain Example.Parse
                   Example.Parse Example.ParseTime Example.NewRequest
                   (newCrawler Example.Do) Example.maxNumRedirects
                   "b.example"
                   (start (mkRequest "http://b.example/ads.txt" "b.example"))
                   [] (Example.page "text/plain" [Byte.x67]) [Byte.x67]
                   (ioutil.mkBody [] None) 0%nat
                   eq_refl eq_refl eq_refl _)).
  left. reflexivity.
Defined.


(** * More properties of [crawler.go] *)

(** ** [handleRedirect] *)

Lemma append_inj_r (p s t : string) : p +:+ s = p +:+ t -> s = t.
Proof.
  induction p as [| a p IH]; simpl; [done |].
  change (String a (p +:+ s) = String a (p +:+ t) -> s = t).
  intros H. injection H as H. auto.
Qed.

Lemma append_inj_l (p q t : string) : p +:+ t = q +:+ t -> p = q.
Proof.
  revert q. induction p as [| a p IH]; intros [| b q] H.
  - reflexivity.
  - apply (f_equal String.length) in H.
    rewrite !length_append in H. simpl in H. lia.
  - apply (f_equal String.length) in H.
    rewrite !length_append in H. simpl in H. lia.
  - change (String a (p +:+ t) = String b (q +:+ t)) in H.
    injection H as -> H. f_equal. auto.
Qed.

Section MoreOnRedirects.

Variable rootDomain : string -> string * option string.
Variable ParseRequestURI : string -> url.URL * option string.
Variable Parse : string -> url.URL * option string.

Local Abbreviation policy := (handleRedirect rootDomain ParseRequestURI Parse).
Local Abbreviation location res :=
  (http.HeaderGet (http.Header res) "Location").
Local Abbreviation previous req := (fst (rootDomain (URL req))).
Local Abbreviation noted req res :=
  (LogRedirect (http.Status res) (URL req) (location res)).

(** The four ways through [handleRedirect]. *)
Lemma handleRedirect_cases req res l :
  (location res = URL req
   /\ policy req res l
      = (Err (errRedirectSameDomain (Domain req) (URL req) (URL req)), l))
  \/ (location res <> URL req
      /\ exists d cause,
        rootDomain (location res) = (d, Some cause)
        /\ policy req res l
           = (Err (errFailToParseRedirect (Domain req) (URL req)
                     (location res) cause),
              l ++ [noted req res]))
  \/ (location res <> URL req
      /\ exists d,
        rootDomain (location res) = (d, None)
        /\ (d <> Domain req /\ previous req <> Domain req
            /\ previous req <> d)
        /\ policy req res l
           = (Err (errRedirectToDifferentDomain (Domain req)
                     (previous req) d),
              l ++ [noted req res]))
  \/ (location res <> URL req
      /\ exists d,
        rootDomain (location res) = (d, None)
        /\ (d = Domain req \/ previous req = Domain req \/ previous req = d)
        /\ policy req res l
           = (targetShape ParseRequestURI Parse req (location res),
              l ++ [noted req res])).
Proof.
  destruct (decide (location res = URL req)) as [Heq | Hne].
  { left. split; [done |]. by apply handleRedirect_loop. }
  right. destruct (rootDomain (location res)) as [d [cause |]] eqn:Hd.
  { left. split; [done |]. exists d, cause. split; [done |].
    by eapply handleRedirect_unresolved. }
  right.
  destruct (decide (d = Domain req)) as [E1 | N1].
  { right. split; [done |]. exists d. split; [done |]. split; [auto |].
    eapply handleRedirect_in_scope; eauto. }
  destruct (decide (previous req = Domain req)) as [E2 | N2].
  { right. split; [done |]. exists d. split; [done |]. split; [auto |].
    eapply handleRedirect_in_scope; eauto. }
  destruct (decide (previous req = d)) as [E3 | N3].
  { right. split; [done |]. exists d. split; [done |]. split; [auto |].
    eapply handleRedirect_in_scope; eauto. }
  left. split; [done |]. exists d. split; [done |]. split; [done |].
  by apply handleRedirect_exhausted.
Qed.

(** The shape of a target is accepted when it ends with [/ads.txt], or
    when both parsers take it, it has a scheme and a host, and it is more
    than scheme and host name. *)
Lemma targetShape_ok req redirect target :
  targetShape ParseRequestURI Parse req redirect = Ok target
  <-> target = redirect
      /\ ((exists p, redirect = p +:+ "/ads.txt")
          \/ ((ParseRequestURI redirect).2 = None
              /\ (Parse redirect).2 = None
              /\ url.Scheme (Parse redirect).1 <> ""
              /\ url.Host (Parse redirect).1 <> ""
              /\ url.Scheme (Parse redirect).1 +:+ "://"
                 +:+ url.Hostname (Parse redirect).1 <> redirect)).
Proof.
  unfold targetShape. rewrite <- HasSuffix_spec.
  destruct (strings.HasSuffix redirect "/ads.txt"); simpl.
  { split; [intros H; injection H as <-; auto | intros [-> _]; done]. }
  destruct (ParseRequestURI redirect).2 as [e1 |]; simpl.
  { split; [discriminate |]. intros [_ [H | H]]; [done |]. by destruct H. }
  destruct (Parse redirect).2 as [e2 |]; simpl.
  { split; [discriminate |].
    intros [_ [H | (_ & H & _)]]; [done | discriminate]. }
  destruct (String.eqb_spec (url.Scheme (Parse redirect).1) ""); simpl.
  { split; [discriminate |]. intros [_ [H | (_ & _ & H & _)]]; done. }
  destruct (String.eqb_spec (url.Host (Parse redirect).1) ""); simpl.
  { split; [discriminate |]. intros [_ [H | (_ & _ & _ & H & _)]]; done. }
  destruct (String.eqb_spec
              (url.Scheme (Parse redirect).1 +:+ "://"
               +:+ url.Hostname (Parse redirect).1) redirect).
  { split; [discriminate |]. intros [_ [H | (_ & _ & _ & _ & H)]]; done. }
  split; [intros H; injection H as <-; auto 10 | intros [-> _]; done].
Qed.

Lemma targetShape_err req redirect e :
  targetShape ParseRequestURI Parse req redirect = Err e ->
  e = errRedirctToInvalidAdsTxt (Domain req) (URL req) redirect
  \/ e = errRedirctToMainPage (Domain req) (URL req) redirect.
Proof.
  unfold targetShape.
  repeat match goal with
         | |- context [if ?b then _ else _] => destruct b
         end; intros H; inversion H; auto.
Qed.

(** X1. [handleRedirect] allows a redirect exactly when the target is not
    the current URL, its root domain is derived without error and is the
    original domain, or is reached from the original domain, or is the
    domain of the current URL, and the target ends with [/ads.txt] or is
    a parsed URL with scheme and host that is more than scheme and host
    name; what it returns then is the value of the [Location] header. *)
Theorem handleRedirect_allows_iff req res l target :
  let redirect := http.HeaderGet (http.Header res) "Location" in
  let prevDomain := fst (rootDomain (URL req)) in
  fst (handleRedirect rootDomain ParseRequestURI Parse req res l) = Ok target
  <-> target = redirect
      /\ redirect <> URL req
      /\ (exists d,
             rootDomain redirect = (d, None)
             /\ (d = Domain req \/ prevDomain = Domain req
                 \/ prevDomain = d))
      /\ ((exists p, redirect = p +:+ "/ads.txt")
          \/ ((ParseRequestURI redirect).2 = None
              /\ (Parse redirect).2 = None
              /\ url.Scheme (Parse redirect).1 <> ""
              /\ url.Host (Parse redirect).1 <> ""
              /\ url.Scheme (Parse redirect).1 +:+ "://"
                 +:+ url.Hostname (Parse redirect).1 <> redirect)).
Proof.
  intros redirect prevDomain. subst redirect prevDomain. split.
  - intros Hok.
    destruct (handleRedirect_cases req res l)
      as [[_ H] | [(_ & d & c & _ & H) | [(_ & d & _ & _ & H)
                                         | (Hne & d & Hd & Hs & H)]]];
      rewrite H in Hok; simpl in Hok; try discriminate.
    apply targetShape_ok in Hok as [-> Hshape]. eauto 10.
  - intros (-> & Hne & (d & Hd & Hs) & Hshape).
    rewrite (handleRedirect_in_scope _ _ _ _ _ _ d) by done. simpl.
    apply targetShape_ok. auto.
Qed.

(** X2. A target whose root domain cannot be derived is refused with the
    error of the resolution as the cause, whatever the scope and the
    shape of the target would be, and the redirect is logged. *)
Theorem unresolved_target_refused req res l d cause :
  let redirect := http.HeaderGet (http.Header res) "Location" in
  redirect <> URL req ->
  rootDomain redirect = (d, Some cause) ->
  handleRedirect rootDomain ParseRequestURI Parse req res l
  = (Err (errFailToParseRedirect (Domain req) (URL req) redirect cause),
     l ++ [LogRedirect (http.Status res) (URL req) redirect]).
Proof. intros redirect Hne Hd. by eapply handleRedirect_unresolved. Qed.

(** X3. [handleRedirect] logs every redirect but the one to the same
    page, once, with the status, the current URL and the target, whether
    it goes on to allow or to refuse it; it leaves what was logged before
    in place. *)
Theorem handleRedirect_logs_once req res l :
  let redirect := http.HeaderGet (http.Header res) "Location" in
  snd (handleRedirect rootDomain ParseRequestURI Parse req res l)
  = if String.eqb redirect (URL req) then l
    else l ++ [LogRedirect (http.Status res) (URL req) redirect].
Proof.
  intros redirect. subst redirect.
  destruct (handleRedirect_cases req res l)
    as [[Heq H] | [(Hne & d & c & _ & H) | [(Hne & d & _ & _ & H)
                                           | (Hne & d & _ & _ & H)]]];
    rewrite H; simpl.
  - by rewrite Heq, String.eqb_refl.
  - by destruct (String.eqb_spec (location res) (URL req)).
  - by destruct (String.eqb_spec (location res) (URL req)).
  - by destruct (String.eqb_spec (location res) (URL req)).
Qed.

(** X4. The errors of [handleRedirect] are the five of the redirect
    policy, each about the original domain: the same page, an unresolved
    root domain, a second hop out of the original domain, an invalid
    target, a homepage. *)
Theorem handleRedirect_errors req res l e :
  let redirect := http.HeaderGet (http.Header res) "Location" in
  let prevDomain := fst (rootDomain (URL req)) in
  fst (handleRedirect rootDomain ParseRequestURI Parse req res l) = Err e ->
  (redirect = URL req
   /\ e = errRedirectSameDomain (Domain req) (URL req) redirect)
  \/ (exists cause,
         (rootDomain redirect).2 = Some cause
         /\ e = errFailToParseRedirect (Domain req) (URL req) redirect cause)
  \/ (fst (rootDomain redirect) <> Domain req
      /\ e = errRedirectToDifferentDomain (Domain req) prevDomain
               (fst (rootDomain redirect)))
  \/ e = errRedirctToInvalidAdsTxt (Domain req) (URL req) redirect
  \/ e = errRedirctToMainPage (Domain req) (URL req) redirect.
Proof.
  intros redirect prevDomain Herr. subst redirect prevDomain.
  destruct (handleRedirect_cases req res l)
    as [[Heq H] | [(Hne & d & c & Hd & H) | [(Hne & d & Hd & Hs & H)
                                            | (Hne & d & Hd & Hs & H)]]];
    rewrite H in Herr; simpl in Herr.
  - injection Herr as <-. left. by rewrite Heq.
  - injection Herr as <-. right. left. exists c. by rewrite Hd.
  - injection Herr as <-. right. right. left. rewrite Hd. simpl. tauto.
  - apply targetShape_err in Herr. tauto.
Qed.

(** X5. A redirect response without a [Location] header is judged as a
    redirect to the empty string: it is the same page for a request
    whose URL is empty, and for any other request it is logged with an
    empty target and, if allowed at all, gives the empty string. *)
Theorem missing_location_is_empty_target req res l :
  http.Header res !! "Location" = None ->
  (URL req = "" ->
   handleRedirect rootDomain ParseRequestURI Parse req res l
   = (Err (errRedirectSameDomain (Domain req) "" ""), l))
  /\ (URL req <> "" ->
      snd (handleRedirect rootDomain ParseRequestURI Parse req res l)
      = l ++ [LogRedirect (http.Status res) (URL req) ""]
      /\ (forall target,
             fst (handleRedirect rootDomain ParseRequestURI Parse req res l)
             = Ok target ->
             target = "")
      /\ (forall d cause,
             rootDomain "" = (d, Some cause) ->
             fst (handleRedirect rootDomain ParseRequestURI Parse req res l)
             = Err (errFailToParseRedirect (Domain req) (URL req) ""
                      cause))).
Proof.
  intros Habs. apply HeaderGet_absent in Habs. split.
  - intros Hurl. rewrite handleRedirect_loop by congruence.
    by rewrite Hurl.
  - intros Hurl.
    assert (location res <> URL req) as Hne by congruence.
    split; [| split].
    + destruct (handleRedirect_cases req res l)
        as [[Heq H] | [(_ & d & c & _ & H) | [(_ & d & _ & _ & H)
                                             | (_ & d & _ & _ & H)]]];
        [done | | |]; rewrite H; simpl; by rewrite Habs.
    + intros target Hok.
      destruct (policy req res l) as [r l'] eqn:E. simpl in Hok. subst r.
      apply handleRedirect_allowed in E as [-> _]. exact Habs.
    + intros d cause Hd.
      rewrite (handleRedirect_unresolved _ _ _ _ _ _ cause d);
        rewrite ?Habs; done.
Qed.

(** X15. The homepage check compares the target with the parsed scheme,
    [://] and the host name. A target within scope that is a scheme,
    [://] and a host and nothing more is therefore allowed, and returned
    as it is, when its host is more than the host name, as with a port,
    or when its scheme is not written as the parser returns it, as with a
    scheme in capitals. *)
Theorem bare_host_followed req res l d u :
  let redirect := http.HeaderGet (http.Header res) "Location" in
  let prevDomain := fst (rootDomain (URL req)) in
  redirect <> URL req ->
  rootDomain redirect = (d, None) ->
  d = Domain req \/ prevDomain = Domain req \/ prevDomain = d ->
  (forall p, redirect <> p +:+ "/ads.txt") ->
  (ParseRequestURI redirect).2 = None ->
  Parse redirect = (u, None) ->
  url.Scheme u <> "" -> url.Host u <> "" ->
  (redirect = url.Scheme u +:+ "://" +:+ url.Host u
   /\ url.Hostname u <> url.Host u)
  \/ (exists scheme,
         redirect = scheme +:+ "://" +:+ url.Hostname u
         /\ scheme <> url.Scheme u) ->
  handleRedirect rootDomain ParseRequestURI Parse req res l
  = (Ok redirect, l ++ [LogRedirect (http.Status res) (URL req) redirect]).
Proof.
  intros redirect prevDomain Hne Hd Hscope Hsuf Hp1 Hp2 Hs Hh Hbare.
  subst prevDomain.
  rewrite (handleRedirect_in_scope _ _ _ _ _ _ d) by done.
  fold redirect. f_equal.
  apply HasSuffix_false in Hsuf. unfold targetShape.
  rewrite Hsuf, Hp1, Hp2. simpl.
  apply String.eqb_neq in Hs, Hh. rewrite Hs, Hh. simpl.
  assert (url.Scheme u +:+ "://" +:+ url.Hostname u <> redirect) as Hshape.
  { intros Heq. destruct Hbare as [[Hr Hport] | (scheme & Hr & Hcase)].
    - rewrite Hr in Heq. apply append_inj_r in Heq.
      by apply (append_inj_r "://") in Heq.
    - rewrite Hr in Heq.
      change (url.Scheme u +:+ ("://" +:+ url.Hostname u)
              = scheme +:+ ("://" +:+ url.Hostname u)) in Heq.
      apply append_inj_l in Heq. congruence. }
  apply String.eqb_neq in Hshape. by rewrite Hshape.
Qed.

End MoreOnRedirects.

(** ** [readBody] *)

Lemma readBody_accepted req res rest :
  http.HeaderGet (http.Header res) "Content-Type" = "text/plain" +:+ rest ->
  readBody req res
  = (match ioutil.broken (http.Body res) with
     | Some cause => Err (errLibrary cause)
     | None => Ok (ioutil.pending (http.Body res))
     end,
     ioutil.mkBody [] (ioutil.broken (http.Body res))).
Proof.
  intros Hct. unfold readBody.
  assert (strings.Index (http.HeaderGet (http.Header res) "Content-Type")
            "text/plain" = 0) as ->.
  { apply Index_zero, prefix_spec. eauto. }
  simpl. by destruct (ioutil.broken (http.Body res)).
Qed.

(** X6. For a content type that starts with [text/plain], parameters
    after it or not, and a body that is read without error, [readBody]
    returns all the bytes of the body and leaves the stream drained. *)
Theorem readBody_reads_plain_text req res rest :
  http.HeaderGet (http.Header res) "Content-Type" = "text/plain" +:+ rest ->
  ioutil.broken (http.Body res) = None ->
  readBody req res
  = (Ok (ioutil.pending (http.Body res)), ioutil.mkBody [] None).
Proof.
  intros Hct Hb. rewrite (readBody_accepted _ _ rest) by done.
  by rewrite Hb.
Qed.

(** X7. When reading the body fails, [readBody] returns the error of the
    read as it is and none of the bytes read before it. *)
Theorem readBody_read_error req res rest cause :
  http.HeaderGet (http.Header res) "Content-Type" = "text/plain" +:+ rest ->
  ioutil.broken (http.Body res) = Some cause ->
  readBody req res
  = (Err (errLibrary cause), ioutil.mkBody [] (Some cause)).
Proof.
  intros Hct Hb. rewrite (readBody_accepted _ _ rest) by done.
  by rewrite Hb.
Qed.

(** X8. [readBody] returns a body exactly when the content type starts
    with [text/plain] and the read does not fail, and the body is then
    all that the stream held. *)
Theorem readBody_ok_iff req res body :
  fst (readBody req res) = Ok body
  <-> (exists rest,
          http.HeaderGet (http.Header res) "Content-Type"
          = "text/plain" +:+ rest)
      /\ ioutil.broken (http.Body res) = None
      /\ body = ioutil.pending (http.Body res).
Proof.
  split.
  - intros Hok.
    destruct (String.prefix "text/plain"
                (http.HeaderGet (http.Header res) "Content-Type")) eqn:Hp.
    + apply prefix_spec in Hp as [rest Hct].
      rewrite (readBody_accepted _ _ rest) in Hok by done. simpl in Hok.
      destruct (ioutil.broken (http.Body res)); [discriminate |].
      injection Hok as <-. eauto.
    + rewrite readBody_bad_content_type in Hok; [discriminate |].
      intros rest Hct.
      assert (String.prefix "text/plain"
                (http.HeaderGet (http.Header res) "Content-Type") = true)
        by (apply prefix_spec; eauto).
      congruence.
  - intros ([rest Hct] & Hb & ->).
    rewrite (readBody_accepted _ _ rest) by done. by rewrite Hb.
Qed.

(** ** [parseExpires] *)

Lemma length_zero (s : string) : (String.length s =? 0)%nat = true <-> s = "".
Proof. destruct s; simpl; split; congruence. Qed.

(** X9. Without an [Expires] header, or with an empty one, [parseExpires]
    fails with its own error, logs nothing and does not ask the parser of
    dates. *)
Theorem parseExpires_missing res l :
  http.Header res !! "Expires" = None
  \/ http.HeaderGet (http.Header res) "Expires" = "" ->
  forall ParseTime,
    parseExpires ParseTime res l = (Err errExpiresMissing, l).
Proof.
  intros H ParseTime.
  assert (http.HeaderGet (http.Header res) "Expires" = "") as Hempty.
  { destruct H as [H | H]; [by apply HeaderGet_absent | done]. }
  unfold parseExpires. rewrite Hempty. reflexivity.
Qed.

(** X10. A header that does not parse as a date makes [parseExpires]
    return the error of the parser as it is, after one line in the log
    with the URL of the request the response answers and the error. *)
Theorem parseExpires_unparsable ParseTime res l t cause :
  let expires := http.HeaderGet (http.Header res) "Expires" in
  expires <> "" ->
  ParseTime expires = (t, Some cause) ->
  parseExpires ParseTime res l
  = (Err (errLibrary cause), l ++ [LogExpires (http.RequestURL res) cause]).
Proof.
  intros expires Hne Hp. subst expires. unfold parseExpires. go_unfold.
  destruct (String.length _ =? 0)%nat eqn:Hlen.
  { apply length_zero in Hlen. done. }
  rewrite Hp. reflexivity.
Qed.

(** X11. [parseExpires] returns a date exactly when the header is not
    empty and parses, the date is the parsed one, and nothing is logged
    then. *)
Theorem parseExpires_ok_iff ParseTime res l t l' :
  let expires := http.HeaderGet (http.Header res) "Expires" in
  parseExpires ParseTime res l = (Ok t, l')
  <-> expires <> "" /\ ParseTime expires = (t, None) /\ l' = l.
Proof.
  intros expires. subst expires. unfold parseExpires. go_unfold.
  destruct (String.length _ =? 0)%nat eqn:Hlen.
  - apply length_zero in Hlen. split; [discriminate |]. intros [H _]. done.
  - assert (http.HeaderGet (http.Header res) "Expires" <> "") as Hne.
    { intros H. apply length_zero in H. congruence. }
    destruct (ParseTime _) as [t' [cause |]].
    + split; [discriminate |]. intros (_ & H & _). discriminate.
    + split.
      * intros H. injection H as -> ->. done.
      * intros (_ & H & ->). by injection H as ->.
Qed.

(** ** [sendRequest] and [newCrawler] *)

Lemma HeaderAdd_same (h : gmap string (list string)) key value :
  http.HeaderAdd h key value !! key = Some (default [] (h !! key) ++ [value]).
Proof. unfold http.HeaderAdd. apply lookup_insert_eq. Qed.

Lemma HeaderAdd_other (h : gmap string (list string)) key value key' :
  key <> key' -> http.HeaderAdd h key value !! key' = h !! key'.
Proof. intros H. unfold http.HeaderAdd. by apply lookup_insert_ne. Qed.

(** X12. When the request can be built, [sendRequest] hands the client a
    request with the method and the URL of the built one, whose header
    has, as the last value under their keys, the user agent of the
    crawler and the three fixed values, and is otherwise that of the
    built request; it returns what the client answers, an error of the
    client as it is. *)
Theorem sendRequest_headers NewRequest agent req r :
  NewRequest "GET" (URL req) = (r, None) ->
  exists sent : http.Request,
    http.Method sent = http.Method r
    /\ http.Target sent = http.Target r
    /\ http.RequestHeader sent !! "User-Agent"
       = Some (default [] (http.RequestHeader r !! "User-Agent")
               ++ [agent])
    /\ http.RequestHeader sent !! "Accept"
       = Some (default [] (http.RequestHeader r !! "Accept")
               ++ ["text/plain"])
    /\ http.RequestHeader sent !! "Accept-Charset"
       = Some (default [] (http.RequestHeader r !! "Accept-Charset")
               ++ ["utf-8"])
    /\ http.RequestHeader sent !! "Content-Type"
       = Some (default [] (http.RequestHeader r !! "Content-Type")
               ++ ["text/plain; charset=utf-8"])
    /\ (forall key,
           key <> "User-Agent" -> key <> "Accept" ->
           key <> "Accept-Charset" -> key <> "Content-Type" ->
           http.RequestHeader sent !! key = http.RequestHeader r !! key)
    /\ forall Do,
        sendRequest NewRequest (mkCrawler Do agent) req
        = match Do sent with
          | (res, None) => Ok res
          | (_, Some cause) => Err (errLibrary cause)
          end.
Proof.
  intros Hr.
  exists (http.mkRequest (http.Method r) (http.Target r)
            (http.HeaderAdd
               (http.HeaderAdd
                  (http.HeaderAdd
                     (http.HeaderAdd (http.RequestHeader r)
                        "User-Agent" agent)
                     "Accept" "text/plain")
                  "Accept-Charset" "utf-8")
               "Content-Type" "text/plain; charset=utf-8")).
  simpl. split; [reflexivity |]. split; [reflexivity |].
  split; [| split; [| split; [| split; [| split]]]].
  - rewrite !HeaderAdd_other by done. apply HeaderAdd_same.
  - rewrite !HeaderAdd_other by done. rewrite HeaderAdd_same.
    by rewrite HeaderAdd_other.
  - rewrite HeaderAdd_other by done. rewrite HeaderAdd_same.
    by rewrite !HeaderAdd_other.
  - rewrite HeaderAdd_same. by rewrite !HeaderAdd_other.
  - intros key H1 H2 H3 H4. by rewrite !HeaderAdd_other.
  - intros Do. unfold sendRequest. rewrite Hr. simpl.
    destruct (Do _) as [res [cause |]]; reflexivity.
Qed.

(** X13. The errors of [sendRequest] are those of the library, as they
    are; when the request cannot be built the client is not called. *)
Theorem sendRequest_errors NewRequest req :
  (forall r cause,
      NewRequest "GET" (URL req) = (r, Some cause) ->
      forall c, sendRequest NewRequest c req = Err (errLibrary cause))
  /\ (forall c e,
         sendRequest NewRequest c req = Err e ->
         exists cause, e = errLibrary cause).
Proof.
  split.
  - intros r cause Hr c. unfold sendRequest. by rewrite Hr.
  - intros c e. unfold sendRequest.
    destruct (NewRequest "GET" (URL req)) as [r [cause |]].
    + intros H. injection H as <-. eauto.
    + destruct (client c _) as [res [cause |]]; [| discriminate].
      intros H. injection H as <-. eauto.
Qed.

(** X14. A crawler made by [newCrawler] sends, on a freshly built request
    with an empty header, exactly four header fields: its user agent,
    [Accept: text/plain], [Accept-Charset: utf-8] and
    [Content-Type: text/plain; charset=utf-8]. *)
Theorem newCrawler_request_header NewRequest req r :
  NewRequest "GET" (URL req) = (r, None) ->
  http.RequestHeader r = ∅ ->
  exists sent : http.Request,
    http.HeaderGet (http.RequestHeader sent) "User-Agent" = userAgent
    /\ http.HeaderGet (http.RequestHeader sent) "Accept" = "text/plain"
    /\ http.HeaderGet (http.RequestHeader sent) "Accept-Charset" = "utf-8"
    /\ http.HeaderGet (http.RequestHeader sent) "Content-Type"
       = "text/plain; charset=utf-8"
    /\ dom (http.RequestHeader sent)
       = ({["User-Agent"; "Accept"; "Accept-Charset"; "Content-Type"]}
          : gset string)
    /\ forall Do,
        sendRequest NewRequest (newCrawler Do) req
        = match Do sent with
          | (res, None) => Ok res
          | (_, Some cause) => Err (errLibrary cause)
          end.
Proof.
  intros Hr Hempty.
  exists (http.mkRequest (http.Method r) (http.Target r)
            (http.HeaderAdd
               (http.HeaderAdd
                  (http.HeaderAdd
                     (http.HeaderAdd (http.RequestHeader r)
                        "User-Agent" userAgent)
                     "Accept" "text/plain")
                  "Accept-Charset" "utf-8")
               "Content-Type" "text/plain; charset=utf-8")).
  simpl. rewrite Hempty. unfold http.HeaderGet.
  split; [| split; [| split; [| split; [| split]]]].
  - rewrite !HeaderAdd_other by done. by rewrite HeaderAdd_same.
  - rewrite !HeaderAdd_other by done. rewrite HeaderAdd_same.
    by rewrite HeaderAdd_other.
  - rewrite HeaderAdd_other by done. rewrite HeaderAdd_same.
    by rewrite !HeaderAdd_other.
  - rewrite HeaderAdd_same. by rewrite !HeaderAdd_other.
  - unfold http.HeaderAdd. rewrite !dom_insert_L. set_solver.
  - intros Do. unfold sendRequest, newCrawler. rewrite Hr. simpl.
    rewrite Hempty. destruct (Do _) as [res [cause |]]; reflexivity.
Qed.

(** ** These properties on the example world *)

(** A redirect within the domain to a page that is not [/ads.txt]. *)
Lemma handleRedirect_allows_iff_witness :
  fst (handleRedirect Example.rootDomain Example.Parse Example.Parse
         (mkRequest "http://a.example/ads.txt" "a.example")
         (Example.found "http://a.example/index.html") [])
  = Ok "http://a.example/index.html".
Proof.
  apply (handleRedirect_allows_iff Example.rootDomain Example.Parse
           Example.Parse (mkRequest "http://a.example/ads.txt" "a.example")
           (Example.found "http://a.example/index.html") []
           "http://a.example/index.html").
  split; [reflexivity |]. split; [discriminate |]. split.
  - exists "a.example". split; [reflexivity | left; reflexivity].
  - right. repeat split; discriminate.
Defined.

Lemma unresolved_target_refused_witness :
  handleRedirect Example.rootDomain Example.Parse Example.Parse
    (mkRequest "http://a.example/ads.txt" "a.example")
    (Example.found "ftp://nowhere") []
  = (Err (errFailToParseRedirect "a.example" "http://a.example/ads.txt"
            "ftp://nowhere" "cannot derive the root domain"),
     [LogRedirect "302 Found" "http://a.example/ads.txt" "ftp://nowhere"]).
Proof.
  refine (unresolved_target_refused Example.rootDomain Example.Parse
            Example.Parse (mkRequest "http://a.example/ads.txt" "a.example")
            (Example.found "ftp://nowhere") [] "" _ _ eq_refl).
  discriminate.
Defined.

(** A bare host with a port, and one with the scheme in capitals. *)
Lemma bare_host_followed_witness :
  let req := mkRequest "http://a.example/ads.txt" "a.example" in
  handleRedirect Sample.rootDomain Sample.Parse Sample.Parse req
    (Example.found "http://a.example:8080") []
  = (Ok "http://a.example:8080",
     [LogRedirect "302 Found" "http://a.example/ads.txt"
        "http://a.example:8080"])
  /\ handleRedirect Sample.rootDomain Sample.Parse Sample.Parse req
       (Example.found "HTTP://a.example") []
     = (Ok "HTTP://a.example",
        [LogRedirect "302 Found" "http://a.example/ads.txt"
           "HTTP://a.example"]).
Proof.
  intros req. split.
  - refine (bare_host_followed Sample.rootDomain Sample.Parse Sample.Parse
              req (Example.found "http://a.example:8080") [] "a.example"
              (url.mkURL "http" "a.example:8080" "a.example")
              _ eq_refl _ _ eq_refl eq_refl _ _ _); try discriminate.
    + left. reflexivity.
    + apply HasSuffix_false. reflexivity.
    + left. split; [reflexivity | discriminate].
  - refine (bare_host_followed Sample.rootDomain Sample.Parse Sample.Parse
              req (Example.found "HTTP://a.example") [] "a.example"
              (url.mkURL "http" "a.example" "a.example")
              _ eq_refl _ _ eq_refl eq_refl _ _ _); try discriminate.
    + left. reflexivity.
    + apply HasSuffix_false. reflexivity.
    + right. exists "HTTP". split; [reflexivity | discriminate].
Defined.

(** A second hop out of the domain is logged although it is refused. *)
Lemma handleRedirect_logs_once_witness :
  snd (handleRedirect Example.rootDomain Example.Parse Example.Parse
         (mkRequest "http://b.example/ads.txt" "a.example")
         (Example.found "http://c.example/ads.txt") [])
  = [LogRedirect "302 Found" "http://b.example/ads.txt"
       "http://c.example/ads.txt"].
Proof.
  exact (handleRedirect_logs_once Example.rootDomain Example.Parse
           Example.Parse (mkRequest "http://b.example/ads.txt" "a.example")
           (Example.found "http://c.example/ads.txt") []).
Defined.

Lemma handleRedirect_errors_witness :
  let req := mkRequest "http://b.example/ads.txt" "a.example" in
  let e := errRedirectToDifferentDomain "a.example" "b.example"
             "c.example" in
  ("http://c.example/ads.txt" = URL req
   /\ e = errRedirectSameDomain (Domain req) (URL req)
            "http://c.example/ads.txt")
  \/ (exists cause,
         (Example.rootDomain "http://c.example/ads.txt").2 = Some cause
         /\ e = errFailToParseRedirect (Domain req) (URL req)
                  "http://c.example/ads.txt" cause)
  \/ (fst (Example.rootDomain "http://c.example/ads.txt") <> Domain req
      /\ e = errRedirectToDifferentDomain (Domain req)
               (fst (Example.rootDomain (URL req)))
               (fst (Example.rootDomain "http://c.example/ads.txt")))
  \/ e = errRedirctToInvalidAdsTxt (Domain req) (URL req)
           "http://c.example/ads.txt"
  \/ e = errRedirctToMainPage (Domain req) (URL req)
           "http://c.example/ads.txt".
Proof.
  exact (handleRedirect_errors Example.rootDomain Example.Parse
           Example.Parse (mkRequest "http://b.example/ads.txt" "a.example")
           (Example.found "http://c.example/ads.txt") []
           (errRedirectToDifferentDomain "a.example" "b.example"
              "c.example") eq_refl).
Defined.

(** A redirect without a [Location] header. *)
Lemma missing_location_is_empty_target_witness :
  fst (handleRedirect Example.rootDomain Example.Parse Example.Parse
         (mkRequest "http://a.example/ads.txt" "a.example") Sample.silent [])
  = Err (errFailToParseRedirect "a.example" "http://a.example/ads.txt" ""
           "cannot derive the root domain").
Proof.
  refine (proj2 (proj2 (proj2
            (missing_location_is_empty_target Example.rootDomain
               Example.Parse Example.Parse
               (mkRequest "http://a.example/ads.txt" "a.example")
               Sample.silent [] eq_refl) _)) "" _ eq_refl).
  discriminate.
Defined.

(** A body of two bytes sent as [text/plain; charset=utf-8]. *)
Lemma readBody_reads_plain_text_witness :
  readBody (mkRequest "http://a.example/ads.txt" "a.example")
    (Sample.expiring "")
  = (Ok [Byte.x67; Byte.x6f], ioutil.mkBody [] None).
Proof.
  exact (readBody_reads_plain_text
           (mkRequest "http://a.example/ads.txt" "a.example")
           (Sample.expiring "") "; charset=utf-8" eq_refl eq_refl).
Defined.

Lemma readBody_read_error_witness :
  readBody (mkRequest "http://a.example/ads.txt" "a.example")
    Sample.interrupted
  = (Err (errLibrary "unexpected EOF"),
     ioutil.mkBody [] (Some "unexpected EOF")).
Proof.
  exact (readBody_read_error
           (mkRequest "http://a.example/ads.txt" "a.example")
           Sample.interrupted "" "unexpected EOF" eq_refl eq_refl).
Defined.

Lemma readBody_ok_iff_witness :
  fst (readBody (mkRequest "http://a.example/ads.txt" "a.example")
         (Example.page "text/plain" [Byte.x67]))
  = Ok [Byte.x67].
Proof.
  apply (readBody_ok_iff (mkRequest "http://a.example/ads.txt" "a.example")
           (Example.page "text/plain" [Byte.x67]) [Byte.x67]).
  split; [exists ""; reflexivity |]. split; reflexivity.
Defined.

Lemma parseExpires_missing_witness :
  parseExpires Sample.ParseTime (Example.page "text/plain" []) []
  = (Err errExpiresMissing, []).
Proof.
  refine (parseExpires_missing (Example.page "text/plain" []) [] _
            Sample.ParseTime).
  left. reflexivity.
Defined.

Lemma parseExpires_unparsable_witness :
  parseExpires Sample.ParseTime (Sample.expiring "tomorrow") []
  = (Err (errLibrary "cannot parse the time"),
     [LogExpires "http://a.example/ads.txt" "cannot parse the time"]).
Proof.
  refine (parseExpires_unparsable Sample.ParseTime
            (Sample.expiring "tomorrow") [] time.zero
            "cannot parse the time" _ eq_refl).
  discriminate.
Defined.

Lemma parseExpires_ok_iff_witness :
  parseExpires Sample.ParseTime
    (Sample.expiring "Thu, 01 Jan 2026 00:00:00 GMT") []
  = (Ok (time.mkTime 63902822400), []).
Proof.
  apply (parseExpires_ok_iff Sample.ParseTime
           (Sample.expiring "Thu, 01 Jan 2026 00:00:00 GMT") []
           (time.mkTime 63902822400) []).
  split; [discriminate |]. split; reflexivity.
Defined.

(** The client that repeats the user agent it was sent. *)
Lemma sendRequest_headers_witness :
  sendRequest Sample.NewRequest (mkCrawler Sample.mirror "agent")
    (mkRequest "http://a.example/ads.txt" "a.example")
  = Ok (http.mkResponse "agent" 200 ∅ (ioutil.mkBody [] None)
          "http://a.example/ads.txt").
Proof.
  destruct (sendRequest_headers Sample.NewRequest "agent"
              (mkRequest "http://a.example/ads.txt" "a.example")
              (http.mkRequest "GET" "http://a.example/ads.txt" ∅) eq_refl)
    as (sent & _ & Htarget & Hagent & _ & _ & _ & _ & Hsend).
  rewrite Hsend. unfold Sample.mirror, http.HeaderGet.
  rewrite Hagent, Htarget. reflexivity.
Defined.

Lemma sendRequest_errors_witness :
  sendRequest Sample.NewRequest (newCrawler Sample.mirror)
    (mkRequest "://a.example" "a.example")
  = Err (errLibrary "missing protocol scheme")
  /\ exists cause,
      errLibrary "connection refused" = errLibrary cause.
Proof.
  split.
  - exact (proj1 (sendRequest_errors Sample.NewRequest
                    (mkRequest "://a.example" "a.example"))
             (http.mkRequest "" "" ∅) "missing protocol scheme" eq_refl
             (newCrawler Sample.mirror)).
  - exact (proj2 (sendRequest_errors Sample.NewRequest
                    (mkRequest "http://a.example/ads.txt" "a.example"))
             (newCrawler Sample.down) (errLibrary "connection refused")
             eq_refl).
Defined.

Lemma newCrawler_request_header_witness :
  exists res,
    sendRequest Sample.NewRequest (newCrawler Sample.mirror)
      (mkRequest "http://a.example/ads.txt" "a.example")
    = Ok res
    /\ http.Status res = "+https://github.com/ehulsbosch/go-adstxt-crawler".
Proof.
  destruct (newCrawler_request_header Sample.NewRequest
              (mkRequest "http://a.example/ads.txt" "a.example")
              (http.mkRequest "GET" "http://a.example/ads.txt" ∅)
              eq_refl eq_refl)
    as (sent & Hagent & _ & _ & _ & _ & Hsend).
  rewrite Hsend. unfold Sample.mirror.
  eexists. split; [reflexivity |]. exact Hagent.
Defined.
